(** * vk: request building and response processing (transport.go)

    A shallow embedding of [transport.go] of the [vk] package, together
    with the parts of Go's standard library that its functions run
    through ([net/url], [path], [net/http.NewRequest], [encoding/json]),
    and the properties of [Request.HTTP], [Client.Do],
    [vkResponseProcessor.To], [vkResponseProcessor.Raw] and the [Raw]
    fragment type.

    Go strings and byte slices are byte sequences: they are modelled by
    [string] (a list of 8-bit [ascii] characters). *)

From Stdlib Require Import Strings.String Strings.Ascii NArith ZArith Bool Sorting.Sorted Permutation.
From stdpp Require Import base list gmap strings sorting.

Local Open Scope string_scope.

(** ** Bytes and strings *)

Definition byte_val (c : ascii) : N := N_of_ascii c.

Definition in_range (lo hi c : ascii) : bool :=
  ((byte_val lo <=? byte_val c) && (byte_val c <=? byte_val hi))%N.

Definition is_alnum (c : ascii) : bool :=
  in_range "a" "z" c || in_range "A" "Z" c || in_range "0" "9" c.

(** [c] is one of the bytes of [set]. *)
Fixpoint byte_in (c : ascii) (set : string) : bool :=
  match set with
  | EmptyString => false
  | String d set' => Ascii.eqb c d || byte_in c set'
  end.

(** [strings.ContainsRune]-like search for one byte. *)
Fixpoint contains_byte (c : ascii) (s : string) : bool :=
  match s with
  | EmptyString => false
  | String d s' => Ascii.eqb d c || contains_byte c s'
  end.

Definition string_eqb (a b : string) : bool := String.eqb a b.

Definition starts_with (c : ascii) (s : string) : bool :=
  match s with
  | String d _ => Ascii.eqb d c
  | EmptyString => false
  end.

(** [strings.HasPrefix]. *)
Fixpoint HasPrefix (s p : string) : bool :=
  match p, s with
  | EmptyString, _ => true
  | String pc p', String sc s' => Ascii.eqb sc pc && HasPrefix s' p'
  | String _ _, EmptyString => false
  end.

(** [strings.HasSuffix s (string c)] for a one-byte suffix. *)
Fixpoint ends_with (c : ascii) (s : string) : bool :=
  match s with
  | EmptyString => false
  | String d EmptyString => Ascii.eqb d c
  | String _ s' => ends_with c s'
  end.

(** [strings.Count s (string c)] for a one-byte pattern. *)
Fixpoint count_byte (c : ascii) (s : string) : nat :=
  match s with
  | EmptyString => 0
  | String d s' => (if Ascii.eqb d c then 1 else 0) + count_byte c s'
  end.

(** [strings.Cut s (string c)]: the text before and after the first [c],
    and whether [c] was found. *)
Fixpoint Cut (c : ascii) (s : string) : string * string * bool :=
  match s with
  | EmptyString => (EmptyString, EmptyString, false)
  | String d s' =>
      if Ascii.eqb d c then (EmptyString, s', true)
      else let '(before, after, found) := Cut c s' in (String d before, after, found)
  end.

(** [strings.Join]. *)
Fixpoint Join (elems : list string) (sep : string) : string :=
  match elems with
  | [] => EmptyString
  | [e] => e
  | e :: rest => e +:+ sep +:+ Join rest sep
  end.

(** ** net/url: escaping *)

(** The escaping modes of [net/url] that [Request.HTTP] runs through. *)
Inductive encoding := encodePath | encodeHost | encodeQueryComponent.

Definition encoding_eqb (a b : encoding) : bool :=
  match a, b with
  | encodePath, encodePath | encodeHost, encodeHost
  | encodeQueryComponent, encodeQueryComponent => true
  | _, _ => false
  end.

(** The byte of the double quote, 0x22. *)
Definition dquote : ascii := ascii_of_nat 34.

(** [url.shouldEscape]. *)
Definition shouldEscape (c : ascii) (mode : encoding) : bool :=
  if is_alnum c then false
  else if encoding_eqb mode encodeHost
          && (byte_in c "!$&'()*+,;=:[]<>" || Ascii.eqb c dquote) then false
  else if byte_in c "-_.~" then false
  else if byte_in c "$&+,/:;=?@" then
    match mode with
    | encodePath => Ascii.eqb c "?"
    | encodeQueryComponent => true
    | encodeHost => true
    end
  else true.

Definition upperhex (n : N) : ascii :=
  match String.get (N.to_nat n) "0123456789ABCDEF" with
  | Some c => c
  | None => "0"%char
  end.

(** [url.ishex] and [url.unhex]. *)
Definition ishex (c : ascii) : bool :=
  in_range "0" "9" c || in_range "a" "f" c || in_range "A" "F" c.

Definition unhex (c : ascii) : N :=
  if in_range "0" "9" c then byte_val c - byte_val "0"
  else if in_range "a" "f" c then byte_val c - byte_val "a" + 10
  else if in_range "A" "F" c then byte_val c - byte_val "A" + 10
  else 0.

(** [url.escape]: a space becomes [+] in a query component, every other
    byte that [shouldEscape] names becomes [%XX], upper-case. *)
Fixpoint escape (s : string) (mode : encoding) : string :=
  match s with
  | EmptyString => EmptyString
  | String c s' =>
      if Ascii.eqb c " " && encoding_eqb mode encodeQueryComponent
      then String "+" (escape s' mode)
      else if shouldEscape c mode
      then String "%" (String (upperhex (byte_val c / 16))
                      (String (upperhex (byte_val c mod 16)) (escape s' mode)))
      else String c (escape s' mode)
  end.

Definition QueryEscape (s : string) : string := escape s encodeQueryComponent.

(** ** The request model and error values *)

(** [url.Values] is [map[string][]string]. *)
Abbreviation url_Values := (gmap string (list string)).

(** Modelled from the spec: the [Request] struct is declared outside
    [transport.go]. It has the fields that [Request.HTTP] reads and the
    package's tests construct, [Request{Token, Method, Values}]: the
    method name, the token (empty when there is none) and the caller's
    parameters. *)
Record Request := mkRequest {
  Method : string;
  Token : string;
  Values : url_Values
}.

(** Modelled from the spec: the [Error] struct that every decode target
    embeds is declared outside [transport.go]. The spec gives it a
    numeric code, a message, the echoed request parameters (an ordered
    list of key/value pairs) and a retained copy of the originating
    [Request]. *)
Record Error := mkError {
  Code : Z;
  Message : string;
  Params : list (string * string);
  Request_ : Request
}.

(** Go [error] values that occur in the package and in the library calls
    it makes. [ErrBadResponseCode] is the package's fixed bad-response-code
    error and [ServerErr] an [Error] used as an error value (both are
    declared outside [transport.go]; the spec names them). [errorString]
    is [errors.New]: it also stands for any error of a collaborator (the
    transport, a reader). *)
Inductive error :=
| ErrBadResponseCode
| ServerErr (e : Error)
| io_EOF
| io_ErrUnexpectedEOF
| SyntaxError (msg : string)
| UnmarshalTypeError (value : string) (field : string)
| EscapeError (s : string)
| InvalidHostError (s : string)
| url_Error (op : string) (url : string) (err : error)
| errorString (msg : string).

Inductive result (A : Type) :=
| Ok (a : A)
| Err (e : error).
Arguments Ok {A} a.
Arguments Err {A} e.

Definition bind_result {A B} (r : result A) (k : A -> result B) : result B :=
  match r with
  | Ok a => k a
  | Err e => Err e
  end.

(** ** net/url: unescaping, URL rendering and parsing *)

Definition take_string (n : nat) (s : string) : string := String.substring 0 n s.

(** [url.unescape]: the first malformed [%] sequence (or, in a host, the
    first byte a host may not hold) is the error; otherwise every [%XX]
    is replaced by its byte, and [+] by a space in a query component. *)
Fixpoint unescape (s : string) (mode : encoding) : result string :=
  match s with
  | EmptyString => Ok EmptyString
  | String c rest =>
      if Ascii.eqb c "%" then
        match rest with
        | String h1 (String h2 rest') =>
            if ishex h1 && ishex h2 then
              if encoding_eqb mode encodeHost && (unhex h1 <? 8)%N
                 && negb (string_eqb (take_string 3 s) "%25")
              then Err (EscapeError (take_string 3 s))
              else
                bind_result (unescape rest' mode) (fun t =>
                  Ok (String (ascii_of_N (unhex h1 * 16 + unhex h2)) t))
            else Err (EscapeError (take_string 3 s))
        | _ => Err (EscapeError (take_string 3 s))
        end
      else if Ascii.eqb c "+" then
        bind_result (unescape rest mode) (fun t =>
          Ok (String (if encoding_eqb mode encodeQueryComponent then " "%char else "+"%char) t))
      else if encoding_eqb mode encodeHost && (byte_val c <? 128)%N
              && shouldEscape c encodeHost
      then Err (InvalidHostError (String c EmptyString))
      else bind_result (unescape rest mode) (fun t => Ok (String c t))
  end.

(** [url.validEncoded]. *)
Fixpoint validEncoded (s : string) (mode : encoding) : bool :=
  match s with
  | EmptyString => true
  | String c s' =>
      (byte_in c "!$&'()*+,;=:@[]%" || negb (shouldEscape c mode))
      && validEncoded s' mode
  end.

(** [url.URL]. Two parts of the Go struct are left out: [User], which is
    nil in every URL built or parsed here, and [Fragment]/[RawFragment],
    which are empty. *)
Record URL := mkURL {
  Scheme : string;
  Opaque : string;
  Host : string;
  Path : string;
  RawPath : string;
  OmitHost : bool;
  ForceQuery : bool;
  RawQuery : string
}.

Definition nonempty (s : string) : bool := negb (string_eqb s EmptyString).

(** [URL.EscapedPath]. *)
Definition EscapedPath (u : URL) : string :=
  if nonempty (RawPath u) && validEncoded (RawPath u) encodePath
     && match unescape (RawPath u) encodePath with
        | Ok p => string_eqb p (Path u)
        | Err _ => false
        end
  then RawPath u
  else if string_eqb (Path u) "*" then "*"
  else escape (Path u) encodePath.

(** [URL.String], for a URL without user info and without fragment. *)
Definition URL_String (u : URL) : string :=
  let scheme_part :=
    if nonempty (Scheme u) then Scheme u +:+ ":" else EmptyString in
  let body :=
    if nonempty (Opaque u) then Opaque u
    else
      let authority :=
        if nonempty (Scheme u) || nonempty (Host u) then
          if OmitHost u && negb (nonempty (Host u)) then EmptyString
          else
            (if nonempty (Host u) || nonempty (Path u) then "//" else EmptyString)
            +:+ (if nonempty (Host u) then escape (Host u) encodeHost else EmptyString)
        else EmptyString in
      let path := EscapedPath u in
      let slash :=
        if nonempty path && negb (starts_with "/" path) && nonempty (Host u)
        then "/" else EmptyString in
      let dot :=
        if negb (nonempty (scheme_part +:+ authority +:+ slash))
           && contains_byte ":" (fst (fst (Cut "/" path)))
        then "./" else EmptyString in
      authority +:+ slash +:+ dot +:+ path in
  let query :=
    if ForceQuery u || nonempty (RawQuery u) then "?" +:+ RawQuery u
    else EmptyString in
  scheme_part +:+ body +:+ query.

(** [url.stringContainsCTLByte]. *)
Fixpoint stringContainsCTLByte (s : string) : bool :=
  match s with
  | EmptyString => false
  | String c s' =>
      (byte_val c <? 32)%N || (byte_val c =? 127)%N || stringContainsCTLByte s'
  end.

Definition is_alpha (c : ascii) : bool := in_range "a" "z" c || in_range "A" "Z" c.
Definition is_digit (c : ascii) : bool := in_range "0" "9" c.

Inductive scheme_scan :=
| NoScheme
| MissingScheme
| FoundScheme (scheme rest : string).

(** The loop of [url.getScheme]; [first] says that the index is 0. *)
Fixpoint scan_scheme (first : bool) (s : string) : scheme_scan :=
  match s with
  | EmptyString => NoScheme
  | String c s' =>
      let continue :=
        match scan_scheme false s' with
        | FoundScheme scheme rest => FoundScheme (String c scheme) rest
        | other => other
        end in
      if is_alpha c then continue
      else if is_digit c || byte_in c "+-." then
        if first then NoScheme else continue
      else if Ascii.eqb c ":" then
        if first then MissingScheme else FoundScheme EmptyString s'
      else NoScheme
  end.

(** [url.getScheme]. *)
Definition getScheme (rawURL : string) : result (string * string) :=
  match scan_scheme true rawURL with
  | NoScheme => Ok (EmptyString, rawURL)
  | MissingScheme => Err (errorString "missing protocol scheme")
  | FoundScheme scheme rest => Ok (scheme, rest)
  end.

(** [strings.ToLower] on the bytes a scheme can hold (ASCII). *)
Definition lower_byte (c : ascii) : ascii :=
  if in_range "A" "Z" c then ascii_of_N (byte_val c + 32) else c.

Fixpoint ToLower (s : string) : string :=
  match s with
  | EmptyString => EmptyString
  | String c s' => String (lower_byte c) (ToLower s')
  end.

(** The suffix of [s] that starts at the last occurrence of [c]
    ([s[strings.LastIndex(s, c):]]), if [c] occurs. *)
Fixpoint from_last (c : ascii) (s : string) : option string :=
  match s with
  | EmptyString => None
  | String d s' =>
      match from_last c s' with
      | Some t => Some t
      | None => if Ascii.eqb d c then Some s else None
      end
  end.

Fixpoint all_digits (s : string) : bool :=
  match s with
  | EmptyString => true
  | String c s' => is_digit c && all_digits s'
  end.

(** [url.validOptionalPort]. *)
Definition validOptionalPort (port : string) : bool :=
  match port with
  | EmptyString => true
  | String c digits => Ascii.eqb c ":" && all_digits digits
  end.

Definition unmodelled (what : string) : error :=
  errorString ("outside the model: " +:+ what).

(** [url.parseHost]. An IP literal in brackets is outside the model and
    reported as an error. *)
Definition parseHost (host : string) : result string :=
  if starts_with "[" host then Err (unmodelled "IP literal")
  else
    match from_last ":" host with
    | Some colonPort =>
        if validOptionalPort colonPort then unescape host encodeHost
        else Err (errorString "invalid port after host")
    | None => unescape host encodeHost
    end.

(** [url.parseAuthority]. User info is outside the model and reported as
    an error. *)
Definition parseAuthority (authority : string) : result string :=
  if contains_byte "@" authority then Err (unmodelled "userinfo")
  else parseHost authority.

(** [URL.setPath]: the decoded path, and the raw path when it is not the
    default encoding of the decoded one. *)
Definition setPath (p : string) : result (string * string) :=
  bind_result (unescape p encodePath) (fun path =>
    if string_eqb p (escape path encodePath) then Ok (path, EmptyString)
    else Ok (path, p)).

(** [url.parse rawURL viaRequest]. *)
Definition url_parse (rawURL : string) (viaRequest : bool) : result URL :=
  if stringContainsCTLByte rawURL
  then Err (errorString "net/url: invalid control character in URL")
  else if negb (nonempty rawURL) && viaRequest then Err (errorString "empty url")
  else if string_eqb rawURL "*"
  then Ok (mkURL EmptyString EmptyString EmptyString "*" EmptyString false false EmptyString)
  else
    bind_result (getScheme rawURL) (fun '(scheme0, rest0) =>
      let scheme := ToLower scheme0 in
      let '(rest1, force, query) :=
        if ends_with "?" rest0 && Nat.eqb (count_byte "?" rest0) 1
        then (take_string (String.length rest0 - 1) rest0, true, EmptyString)
        else let '(before, after, _) := Cut "?" rest0 in (before, false, after) in
      if negb (starts_with "/" rest1) && nonempty scheme
      then Ok (mkURL scheme rest1 EmptyString EmptyString EmptyString false force query)
      else if negb (starts_with "/" rest1) && viaRequest
      then Err (errorString "invalid URI for request")
      else if negb (starts_with "/" rest1)
              && contains_byte ":" (fst (fst (Cut "/" rest1)))
      then Err (errorString "first path segment in URL cannot contain colon")
      else
        let with_path (host : string) (omit : bool) (rest : string) : result URL :=
          bind_result (setPath rest) (fun '(path, rawpath) =>
            Ok (mkURL scheme EmptyString host path rawpath omit force query)) in
        if (nonempty scheme || negb viaRequest && negb (HasPrefix rest1 "///"))
           && HasPrefix rest1 "//"
        then
          let after := String.substring 2 (String.length rest1 - 2) rest1 in
          let '(authority, rest2) :=
            let '(before, tail, found) := Cut "/" after in
            if found then (before, String "/" tail) else (after, EmptyString) in
          bind_result (parseAuthority authority) (fun host =>
            with_path host false rest2)
        else if nonempty scheme && starts_with "/" rest1
        then with_path EmptyString true rest1
        else with_path EmptyString false rest1).

(** [url.Parse]. A [#fragment] is outside the model and reported as an
    error; without one, the result is that of [parse], an error being
    wrapped into a [url.Error]. *)
Definition url_Parse (rawURL : string) : result URL :=
  let '(u, frag, _) := Cut "#" rawURL in
  match url_parse u false with
  | Err e => Err (url_Error "parse" u e)
  | Ok url =>
      if nonempty frag then Err (unmodelled "fragment") else Ok url
  end.

(** ** path.Clean and path.Join *)

(** The backtracking of [path.Clean] at a [..] element: from write index
    [w], step back while [w > dotdot] and the byte at [w] is not [/]. *)
Fixpoint backtrack (fuel : nat) (out : string) (w dotdot : nat) : nat :=
  match fuel with
  | O => w
  | S fuel' =>
      if (dotdot <? w)%nat
         && negb (match String.get w out with
                  | Some c => Ascii.eqb c "/"
                  | None => false
                  end)
      then backtrack fuel' out (w - 1) dotdot
      else w
  end.

Definition at_element_end (rest : string) : bool :=
  negb (nonempty rest) || starts_with "/" rest.

(** The main loop of [path.Clean] over the unread part [path], with the
    bytes written so far in [out] (the write index is its length).
    [copying] says that the loop is inside a real path element, whose
    bytes are copied up to the next [/]. *)
Fixpoint clean_loop (rooted copying : bool) (path out : string) (dotdot : nat) : string :=
  match path with
  | EmptyString => out
  | String c rest =>
      if copying then
        if Ascii.eqb c "/" then clean_loop rooted false rest out dotdot
        else clean_loop rooted true rest (out +:+ String c EmptyString) dotdot
      else if Ascii.eqb c "/" then clean_loop rooted false rest out dotdot
      else if Ascii.eqb c "." && at_element_end rest
      then clean_loop rooted false rest out dotdot
      else
        let element :=
          let w := String.length out in
          let out' :=
            if rooted && negb (Nat.eqb w 1) || negb rooted && negb (Nat.eqb w 0)
            then out +:+ "/" else out in
          clean_loop rooted true rest (out' +:+ String c EmptyString) dotdot in
        match rest with
        | String c2 rest2 =>
            if Ascii.eqb c "." && Ascii.eqb c2 "." && at_element_end rest2 then
              let w := String.length out in
              if (dotdot <? w)%nat then
                let w' := backtrack w out (w - 1) dotdot in
                clean_loop rooted false rest2 (take_string w' out) dotdot
              else if negb rooted then
                let out' := (if (0 <? w)%nat then out +:+ "/" else out) +:+ ".." in
                clean_loop rooted false rest2 out' (String.length out')
              else clean_loop rooted false rest2 out dotdot
            else element
        | EmptyString => element
        end
  end.

(** [path.Clean]. *)
Definition Clean (path : string) : string :=
  match path with
  | EmptyString => "."
  | String c rest =>
      let rooted := Ascii.eqb c "/" in
      let out :=
        if rooted then clean_loop true false rest "/" 1
        else clean_loop false false path EmptyString 0 in
      if nonempty out then out else "."
  end.

(** The buffer that [path.Join] builds: the elements separated by [/],
    leading empty elements being dropped. *)
Fixpoint join_buf (buf : string) (elem : list string) : string :=
  match elem with
  | [] => buf
  | e :: rest =>
      if nonempty buf || nonempty e
      then join_buf ((if nonempty buf then buf +:+ "/" else buf) +:+ e) rest
      else join_buf buf rest
  end.

(** [path.Join]. *)
Definition path_Join (elem : list string) : string :=
  if Nat.eqb (list_sum (map String.length elem)) 0 then EmptyString
  else Clean (join_buf EmptyString elem).

(** ** url.Values *)

(** [Values.Add]: append [value] to the values of [key]. *)
Definition Values_Add (key value : string) (v : url_Values) : url_Values :=
  <[key := (default [] (v !! key) ++ [value])%list]> v.

(** Byte-wise lexicographic order, the order of [sort.Strings]. *)
Definition string_le (a b : string) : Prop := String.leb a b = true.

#[global] Instance string_le_dec : RelDecision string_le.
Proof. intros a b. unfold string_le. apply _. Defined.

(** The keys of [v] as [Values.Encode] visits them: sorted. *)
Definition sorted_keys (v : url_Values) : list string :=
  merge_sort string_le (map_to_list v).*1.

(** The (key, value) pairs of [v] in the order in which [Values.Encode]
    writes them: keys ascending, the values of a key in their order. *)
Definition encode_pairs (v : url_Values) : list (string * string) :=
  flat_map (fun k => map (pair k) (default [] (v !! k))) (sorted_keys v).

Definition encode_pair (kv : string * string) : string :=
  QueryEscape (fst kv) +:+ "=" +:+ QueryEscape (snd kv).

(** [Values.Encode]: [key=value] pairs, escaped, separated by [&]. *)
Definition Values_Encode (v : url_Values) : string :=
  Join (map encode_pair (encode_pairs v)) "&".

(** ** net/http.NewRequest *)

(** [http.Request], as far as [NewRequest] with a nil body fills it. *)
Record HTTPRequest := mkHTTPRequest {
  req_Method : string;
  req_URL : URL;
  req_Host : string
}.

(** [httpguts.IsTokenRune]. *)
Definition isToken (c : ascii) : bool :=
  is_alnum c || byte_in c "!#$%&'*+-.^_`|~".

Fixpoint all_token (s : string) : bool :=
  match s with
  | EmptyString => true
  | String c s' => isToken c && all_token s'
  end.

(** [http.validMethod]. *)
Definition validMethod (method : string) : bool :=
  nonempty method && all_token method.

(** [http.removeEmptyPort]: drop a trailing colon of a host that has a
    port part ([hasPort]: the last colon lies after the last closing
    bracket). *)
Definition removeEmptyPort (host : string) : string :=
  let hasPort :=
    match from_last ":" host with
    | Some colon => negb (contains_byte "]" colon)
    | None => false
    end in
  if hasPort && ends_with ":" host
  then take_string (String.length host - 1) host
  else host.

(** [http.NewRequest method url nil]. *)
Definition NewRequest (method url : string) : result HTTPRequest :=
  let method := if nonempty method then method else "GET" in
  if negb (validMethod method) then Err (errorString "net/http: invalid method")
  else
    bind_result (url_Parse url) (fun u =>
      let host := removeEmptyPort (Host u) in
      Ok (mkHTTPRequest method
            (mkURL (Scheme u) (Opaque u) host (Path u) (RawPath u)
                   (OmitHost u) (ForceQuery u) (RawQuery u))
            host)).

(** ** Request.HTTP *)

(** The protocol constants are declared outside [transport.go]. Their
    values are those of the URL that the package's test expects from
    [Request.HTTP] for the method [users.get], the token [token] and the
    parameter [foo=bar]:
    [https://api.vk.com/method/users.get?access_token=token&foo=bar&https=1&v=5.35]. *)

(** Modelled from the spec: the fixed API host. *)
Definition defaultHost : string := "api.vk.com".

(** Modelled from the spec: the fixed scheme. *)
Definition defaultScheme : string := "https".

(** Modelled from the spec: the fixed API path prefix. *)
Definition defaultPath : string := "/method/".

(** Modelled from the spec: the fixed HTTP verb. *)
Definition defaultMethod : string := "GET".

(** Modelled from the spec: the fixed API version. *)
Definition defaultVersion : string := "5.35".

(** Modelled from the spec: the value of the https flag. *)
Definition defaultHTTPS : string := "1".

(** Modelled from the spec: the key of the version parameter. *)
Definition paramVersion : string := "v".

(** Modelled from the spec: the key of the https flag. *)
Definition paramHTTPS : string := "https".

(** Modelled from the spec: the key of the access token. *)
Definition paramToken : string := "access_token".

(** A call either returns or panics: [must] panics on an error, and a
    nil pointer panics when it is dereferenced. *)
Inductive outcome (A : Type) :=
| Returns (a : A)
| Panics (e : error).
Arguments Returns {A} a.
Arguments Panics {A} e.

(** [must]: panic on a non-nil error. *)
Definition must {A} (r : result A) : outcome A :=
  match r with
  | Ok a => Returns a
  | Err e => Panics e
  end.

(** The loop [for k, v := range r.Values { values[k] = v }]: Go visits
    the entries of a map in an unspecified order; [map_fold] visits them
    in some order, and the resulting map does not depend on it. *)
Definition copy_params (old : url_Values) : url_Values :=
  map_fold (fun k v values => <[k := v]> values) ∅ old.

(** The parameter set that [Request.HTTP] encodes. *)
Definition request_values (r : Request) : url_Values :=
  let values := copy_params (Values r) in
  let values := Values_Add paramVersion defaultVersion values in
  let values := Values_Add paramHTTPS defaultHTTPS values in
  if nonempty (Token r) then Values_Add paramToken (Token r) values else values.

(** The [url.URL] that [Request.HTTP] fills in. *)
Definition request_url (r : Request) : URL :=
  {| Scheme := defaultScheme;
     Opaque := EmptyString;
     Host := defaultHost;
     Path := path_Join [defaultPath; Method r];
     RawPath := EmptyString;
     OmitHost := false;
     ForceQuery := false;
     RawQuery := Values_Encode (request_values r) |}.

(** [Request.HTTP]: the parameter set [values] is [request_values r],
    the URL [u] is [request_url r]; [http.NewRequest] gets the fixed
    verb, the rendered URL and no body, and [must] panics on its error. *)
Definition HTTP (r : Request) : outcome HTTPRequest :=
  must (NewRequest defaultMethod (URL_String (request_url r))).


(** ** Predicates used in the statements *)

Fixpoint all_bytes (P : ascii -> bool) (s : string) : bool :=
  match s with
  | EmptyString => true
  | String c s' => P c && all_bytes P s'
  end.

(** A byte that [url.Parse] reads as ordinary text: no control byte,
    no [#] and no [?]. *)
Definition plain_byte (c : ascii) : bool :=
  negb ((byte_val c <? 32)%N || (byte_val c =? 127)%N)
  && negb (Ascii.eqb c "#") && negb (Ascii.eqb c "?").

(** A method name that is one plain path element: not empty, without
    [/], and neither [.] nor [..]. *)
Definition plain_method (m : string) : bool :=
  nonempty m && negb (contains_byte "/" m)
  && negb (string_eqb m ".") && negb (string_eqb m "..").

(** The values that a list of pairs holds for the key [k], in order. *)
Definition values_for (k : string) (ps : list (string * string)) : list string :=
  (filter (fun kv => kv.1 = k) ps).*2.


(** The values that the protocol adds for the key [k]: the version, the
    https flag and, when the token is not empty, the access token. *)
Definition protocol_values (r : Request) (k : string) : list string :=
  ((if decide (k = paramVersion) then [defaultVersion] else [])
   ++ (if decide (k = paramHTTPS) then [defaultHTTPS] else [])
   ++ (if decide (k = paramToken)
       then (if nonempty (Token r) then [Token r] else [])
       else []))%list.










(** ** encoding/json: scanning a JSON text *)

(** A JSON value. The elements of an array and the members of an object
    carry the source bytes they were read from, which is what the
    decoder hands to a [json.Unmarshaler] such as [Raw]. A string holds
    the bytes between its quotes, not yet unquoted. *)
#[warnings="-register-all"]
Inductive json :=
| JNull
| JBool (b : bool)
| JNumber (lit : string)
| JString (quoted : string)
| JArray (items : list (string * json))
| JObject (members : list (string * (string * json))).

(** [json.isSpace]. *)
Definition isSpace (c : ascii) : bool :=
  (byte_val c <=? 32)%N
  && (Ascii.eqb c " " || (byte_val c =? 9)%N || (byte_val c =? 13)%N
      || (byte_val c =? 10)%N).

(** *** Unquoting a string literal *)

Definition hex4 (a b c d : ascii) : option N :=
  if ishex a && ishex b && ishex c && ishex d
  then Some (((unhex a * 16 + unhex b) * 16 + unhex c) * 16 + unhex d)%N
  else None.

(** [json.getu4]: the code unit of a [\uXXXX] escape at the head of [s]. *)
Definition getu4 (s : string) : option N :=
  match s with
  | String e (String u (String a (String b (String c (String d _))))) =>
      if Ascii.eqb e "\" && Ascii.eqb u "u" then hex4 a b c d else None
  | _ => None
  end.

Definition byte_of (n : N) : ascii := ascii_of_N n.

(** [utf8.EncodeRune]; a surrogate or a value past U+10FFFF is written
    as U+FFFD. *)
Definition EncodeRune (r : N) : string :=
  (if r <? 128 then String (byte_of r) EmptyString
   else if r <? 2048 then
     String (byte_of (192 + r / 64)) (String (byte_of (128 + r mod 64)) EmptyString)
   else if (55296 <=? r) && (r <? 57344) || (1114111 <? r) then
     String (byte_of 239) (String (byte_of 191) (String (byte_of 189) EmptyString))
   else if r <? 65536 then
     String (byte_of (224 + r / 4096))
       (String (byte_of (128 + (r / 64) mod 64))
          (String (byte_of (128 + r mod 64)) EmptyString))
   else
     String (byte_of (240 + r / 262144))
       (String (byte_of (128 + (r / 4096) mod 64))
          (String (byte_of (128 + (r / 64) mod 64))
             (String (byte_of (128 + r mod 64)) EmptyString))))%N.

Definition replacement : string := EncodeRune 65533.

(** [utf16.DecodeRune]: the code point of a surrogate pair, if it is one. *)
Definition decode_surrogates (r1 r2 : N) : option N :=
  (if (55296 <=? r1) && (r1 <? 56320) && (56320 <=? r2) && (r2 <? 57344)
   then Some ((r1 - 55296) * 1024 + (r2 - 56320) + 65536)
   else None)%N.

Definition between (lo hi : N) (c : ascii) : bool :=
  ((lo <=? byte_val c) && (byte_val c <=? hi))%N.

(** The length of the well-formed UTF-8 sequence that starts with the
    byte [c] followed by [rest] (2, 3 or 4), or 0 if there is none
    ([utf8.DecodeRune] then yields [RuneError] with size 1). *)
Definition utf8_size (c : ascii) (rest : string) : nat :=
  match rest with
  | String b1 rest1 =>
      if between 194 223 c && between 128 191 b1 then 2
      else
        match rest1 with
        | String b2 rest2 =>
            if between 128 191 b2
               && (between 224 224 c && between 160 191 b1
                   || (between 225 236 c || between 238 239 c) && between 128 191 b1
                   || between 237 237 c && between 128 159 b1)
            then 3
            else
              match rest2 with
              | String b3 _ =>
                  if between 128 191 b2 && between 128 191 b3
                     && (between 240 240 c && between 144 191 b1
                         || between 241 243 c && between 128 191 b1
                         || between 244 244 c && between 128 143 b1)
                  then 4 else 0
              | EmptyString => 0
              end
        | EmptyString => 0
        end
  | EmptyString => 0
  end.

(** The byte that a one-letter escape stands for. *)
Definition unescape_letter (e : ascii) : option ascii :=
  if Ascii.eqb e dquote || Ascii.eqb e "\" || Ascii.eqb e "/" || Ascii.eqb e "'"
  then Some e
  else if Ascii.eqb e "b" then Some (byte_of 8)
  else if Ascii.eqb e "f" then Some (byte_of 12)
  else if Ascii.eqb e "n" then Some (byte_of 10)
  else if Ascii.eqb e "r" then Some (byte_of 13)
  else if Ascii.eqb e "t" then Some (byte_of 9)
  else None.

(** [json.unquoteBytes] on the text between the quotes of a literal that
    the scanner has accepted: escapes are replaced, ill-formed UTF-8 is
    coerced to U+FFFD. (On a text that the scanner would reject, the
    result stops at the offending byte.) *)
Fixpoint unquote (s : string) : string :=
  match s with
  | EmptyString => EmptyString
  | String c rest =>
      if Ascii.eqb c "\" then
        match rest with
        | String e rest1 =>
            if Ascii.eqb e "u" then
              match rest1 with
              | String a (String b (String c' (String d rest2))) =>
                  match hex4 a b c' d with
                  | None => EmptyString
                  | Some rr =>
                      if ((55296 <=? rr) && (rr <? 57344))%N then
                        match rest2 with
                        | String _ (String _ (String _ (String _ (String _ (String _ rest3))))) =>
                            match getu4 rest2 with
                            | Some rr1 =>
                                match decode_surrogates rr rr1 with
                                | Some dec => EncodeRune dec +:+ unquote rest3
                                | None => replacement +:+ unquote rest2
                                end
                            | None => replacement +:+ unquote rest2
                            end
                        | _ => replacement +:+ unquote rest2
                        end
                      else EncodeRune rr +:+ unquote rest2
                  end
              | _ => EmptyString
              end
            else
              match unescape_letter e with
              | Some x => String x (unquote rest1)
              | None => EmptyString
              end
        | EmptyString => EmptyString
        end
      else if Ascii.eqb c dquote || (byte_val c <? 32)%N then EmptyString
      else if (byte_val c <? 128)%N then String c (unquote rest)
      else
        match utf8_size c rest, rest with
        | 2, String b1 r1 => String c (String b1 (unquote r1))
        | 3, String b1 (String b2 r2) => String c (String b1 (String b2 (unquote r2)))
        | 4, String b1 (String b2 (String b3 r3)) =>
            String c (String b1 (String b2 (String b3 (unquote r3))))
        | _, _ => replacement +:+ unquote rest
        end
  end.

(** *** The scanner *)

(** Where the scanner is inside a number literal: after the minus sign,
    after a leading zero, in the integer digits, after the dot, in the
    fraction digits, after the [e], after the sign of the exponent, in
    the exponent digits. *)
Inductive numstate :=
| NMinus | NZero | NInt | NDot | NFrac | NExp | NExpSign | NExpDigits.

Inductive numstep :=
| NumContinue (st : numstate)
| NumEnd
| NumBad.

Definition is_e (c : ascii) : bool := Ascii.eqb c "e" || Ascii.eqb c "E".

Definition num_step (st : numstate) (c : ascii) : numstep :=
  match st with
  | NMinus =>
      if Ascii.eqb c "0" then NumContinue NZero
      else if in_range "1" "9" c then NumContinue NInt else NumBad
  | NZero =>
      if Ascii.eqb c "." then NumContinue NDot
      else if is_e c then NumContinue NExp else NumEnd
  | NInt =>
      if is_digit c then NumContinue NInt
      else if Ascii.eqb c "." then NumContinue NDot
      else if is_e c then NumContinue NExp else NumEnd
  | NDot => if is_digit c then NumContinue NFrac else NumBad
  | NFrac =>
      if is_digit c then NumContinue NFrac
      else if is_e c then NumContinue NExp else NumEnd
  | NExp =>
      if Ascii.eqb c "+" || Ascii.eqb c "-" then NumContinue NExpSign
      else if is_digit c then NumContinue NExpDigits else NumBad
  | NExpSign => if is_digit c then NumContinue NExpDigits else NumBad
  | NExpDigits => if is_digit c then NumContinue NExpDigits else NumEnd
  end.

(** The states in which a number literal may end. *)
Definition num_accepting (st : numstate) : bool :=
  match st with
  | NZero | NInt | NFrac | NExpDigits => true
  | _ => false
  end.

(** Where the scanner is inside a string literal: in plain text, after
    a backslash, or in the hex digits of a [\u] escape. *)
Inductive strstate :=
| SPlain
| SEscape
| SUnicode (digits_left : nat).

(** What the scanner is in the middle of: nothing, a string (a key or a
    value), a number, or one of the literals [true], [false], [null]
    with the bytes it still expects. The bytes read so far are kept. *)
Inductive lexmode :=
| LNone
| LString (raw : string) (st : strstate)
| LNumber (raw : string) (st : numstate)
| LLiteral (raw : string) (remaining : string) (v : json).

(** An open array or object: its source bytes so far, its elements or
    members so far (latest first), and for an object the key that waits
    for its value. *)
Inductive frame :=
| FArray (raw : string) (items : list (string * json))
| FObject (raw : string) (members : list (string * (string * json)))
          (key : option string).

(** What may come next. *)
Inductive expect :=
| BeginValue
| BeginValueOrEnd
| BeginKeyOrEnd
| BeginKey
| AfterKey
| AfterValue.

Inductive status :=
| Running
| Pending (raw : string) (v : json)
| Finished (raw : string) (v : json)
| Bad.

Record machine := mkMachine {
  m_lex : lexmode;
  m_expect : expect;
  m_stack : list frame;
  m_status : status
}.

Definition machine_init : machine := mkMachine LNone BeginValue [] Running.

Definition bad : machine := mkMachine LNone BeginValue [] Bad.

(** [json.maxNestingDepth]. *)
Definition maxNestingDepth : N := 10000.

Definition snoc (s : string) (c : ascii) : string := s +:+ String c EmptyString.

(** Add bytes to the source text of the innermost open container. *)
Definition note (text : string) (stack : list frame) : list frame :=
  match stack with
  | FArray raw items :: st => FArray (raw +:+ text) items :: st
  | FObject raw members key :: st => FObject (raw +:+ text) members key :: st
  | [] => []
  end.

(** A value is complete. At the top level a container ends the scan at
    once ([delayed = false]); the end of a string or literal is noticed
    one byte later. Inside a container the value joins it. *)
Definition complete (raw : string) (v : json) (delayed : bool)
    (stack : list frame) : machine :=
  match stack with
  | [] =>
      mkMachine LNone AfterValue []
        (if delayed then Pending raw v else Finished raw v)
  | FArray fraw items :: st =>
      mkMachine LNone AfterValue (FArray (fraw +:+ raw) ((raw, v) :: items) :: st) Running
  | FObject fraw members (Some key) :: st =>
      mkMachine LNone AfterValue
        (FObject (fraw +:+ raw) ((key, (raw, v)) :: members) None :: st) Running
  | FObject _ _ None :: _ => bad
  end.

(** Open a container. *)
Definition push (f : frame) (e : expect) (stack : list frame) : machine :=
  if (maxNestingDepth <=? N.of_nat (List.length stack))%N then bad
  else mkMachine LNone e (f :: stack) Running.

(** Close the innermost container with the byte [c]. *)
Definition close (c : ascii) (stack : list frame) : machine :=
  match stack with
  | FArray raw items :: st =>
      if Ascii.eqb c "]" then complete (snoc raw c) (JArray (rev items)) false st
      else bad
  | FObject raw members None :: st =>
      if Ascii.eqb c "}" then complete (snoc raw c) (JObject (rev members)) false st
      else bad
  | _ => bad
  end.

(** The start of a value. *)
Definition begin_value (c : ascii) (stack : list frame) : machine :=
  let one := String c EmptyString in
  if Ascii.eqb c "{" then push (FObject one [] None) BeginKeyOrEnd stack
  else if Ascii.eqb c "[" then push (FArray one []) BeginValueOrEnd stack
  else if Ascii.eqb c dquote then mkMachine (LString one SPlain) BeginValue stack Running
  else if Ascii.eqb c "-" then mkMachine (LNumber one NMinus) BeginValue stack Running
  else if Ascii.eqb c "0" then mkMachine (LNumber one NZero) BeginValue stack Running
  else if in_range "1" "9" c then mkMachine (LNumber one NInt) BeginValue stack Running
  else if Ascii.eqb c "t" then mkMachine (LLiteral one "rue" (JBool true)) BeginValue stack Running
  else if Ascii.eqb c "f" then mkMachine (LLiteral one "alse" (JBool false)) BeginValue stack Running
  else if Ascii.eqb c "n" then mkMachine (LLiteral one "ull" JNull) BeginValue stack Running
  else bad.

(** One byte outside of any string, number or literal. *)
Definition step_between (e : expect) (stack : list frame) (c : ascii) : machine :=
  let one := String c EmptyString in
  if isSpace c then mkMachine LNone e (note one stack) Running
  else
    match e with
    | BeginValue => begin_value c stack
    | BeginValueOrEnd =>
        if Ascii.eqb c "]" then close c stack else begin_value c stack
    | BeginKeyOrEnd =>
        if Ascii.eqb c "}" then close c stack
        else if Ascii.eqb c dquote then mkMachine (LString one SPlain) e stack Running
        else bad
    | BeginKey =>
        if Ascii.eqb c dquote then mkMachine (LString one SPlain) e stack Running
        else bad
    | AfterKey =>
        if Ascii.eqb c ":" then mkMachine LNone BeginValue (note one stack) Running
        else bad
    | AfterValue =>
        match stack with
        | FArray _ _ :: _ =>
            if Ascii.eqb c "," then mkMachine LNone BeginValue (note one stack) Running
            else close c stack
        | FObject _ _ _ :: _ =>
            if Ascii.eqb c "," then mkMachine LNone BeginKey (note one stack) Running
            else close c stack
        | [] => bad
        end
    end.

(** The end of a string literal: a key waits for its value, a value is
    complete. [quoted] is the text between the quotes. *)
Definition end_string (raw : string) (e : expect) (stack : list frame) : machine :=
  let quoted := String.substring 1 (String.length raw - 2) raw in
  match e with
  | BeginKeyOrEnd | BeginKey =>
      match stack with
      | FObject fraw members None :: st =>
          mkMachine LNone AfterKey
            (FObject (fraw +:+ raw) members (Some (unquote quoted)) :: st) Running
      | _ => bad
      end
  | _ => complete raw (JString quoted) true stack
  end.

(** One byte inside a string literal. *)
Definition step_string (raw : string) (st : strstate) (e : expect)
    (stack : list frame) (c : ascii) : machine :=
  let raw' := snoc raw c in
  match st with
  | SPlain =>
      if Ascii.eqb c dquote then end_string raw' e stack
      else if Ascii.eqb c "\" then mkMachine (LString raw' SEscape) e stack Running
      else if (byte_val c <? 32)%N then bad
      else mkMachine (LString raw' SPlain) e stack Running
  | SEscape =>
      if Ascii.eqb c "b" || Ascii.eqb c "f" || Ascii.eqb c "n" || Ascii.eqb c "r"
         || Ascii.eqb c "t" || Ascii.eqb c "\" || Ascii.eqb c "/" || Ascii.eqb c dquote
      then mkMachine (LString raw' SPlain) e stack Running
      else if Ascii.eqb c "u" then mkMachine (LString raw' (SUnicode 4)) e stack Running
      else bad
  | SUnicode n =>
      if ishex c then
        mkMachine (LString raw' (match n with
                                 | S (S n') => SUnicode (S n')
                                 | _ => SPlain
                                 end)) e stack Running
      else bad
  end.

(** One byte of the scanner. *)
Definition step (m : machine) (c : ascii) : machine :=
  match m_status m with
  | Running =>
      match m_lex m with
      | LNone => step_between (m_expect m) (m_stack m) c
      | LString raw st => step_string raw st (m_expect m) (m_stack m) c
      | LNumber raw st =>
          match num_step st c with
          | NumContinue st' =>
              mkMachine (LNumber (snoc raw c) st') (m_expect m) (m_stack m) Running
          | NumEnd =>
              let m' := complete raw (JNumber raw) false (m_stack m) in
              match m_status m' with
              | Running => step_between (m_expect m') (m_stack m') c
              | _ => m'
              end
          | NumBad => bad
          end
      | LLiteral raw remaining v =>
          match remaining with
          | String x remaining' =>
              if Ascii.eqb c x then
                match remaining' with
                | EmptyString => complete (snoc raw c) v true (m_stack m)
                | _ => mkMachine (LLiteral (snoc raw c) remaining' v)
                         (m_expect m) (m_stack m) Running
                end
              else bad
          | EmptyString => bad
          end
      end
  | _ => m
  end.

(** What the end of the input means for an unfinished scan: a top-level
    value ends here, or the scanner rejects the space that
    [scanner.eof] feeds it, or more bytes are needed. *)
Inductive eof_verdict :=
| EndsValue (raw : string) (v : json)
| SpaceRejected
| NeedsMore.

(** The outcome of scanning a text for its first value. *)
Inductive scanned :=
| Complete (raw : string) (v : json) (rest : string)
| Invalid
| Incomplete (at_eof : eof_verdict).

Definition at_end (m : machine) : eof_verdict :=
  match m_lex m, m_stack m with
  | LNumber raw st, [] =>
      if num_accepting st then EndsValue raw (JNumber raw) else SpaceRejected
  | _, _ =>
      match m_status (step m " ") with
      | Bad => SpaceRejected
      | _ => NeedsMore
      end
  end.

(** Feed the bytes of [s] to the scanner until a value is complete
    ([Complete], with the bytes that follow it), a byte is rejected
    ([Invalid]), or the bytes run out ([Incomplete]). The end of a
    top-level string or literal is noticed at the next byte, that of a
    top-level number at the byte that cannot continue it. *)
Fixpoint scan_from (m : machine) (s : string) : scanned :=
  match m_status m with
  | Finished raw v => Complete raw v s
  | Bad => Invalid
  | Pending raw v =>
      match s with
      | EmptyString => Incomplete (EndsValue raw v)
      | _ => Complete raw v s
      end
  | Running =>
      match s with
      | EmptyString => Incomplete (at_end m)
      | String c rest =>
          match m_lex m, m_stack m with
          | LNumber raw st, [] =>
              match num_step st c with
              | NumEnd => Complete raw (JNumber raw) s
              | _ => scan_from (step m c) rest
              end
          | _, _ => scan_from (step m c) rest
          end
      end
  end.

Definition scan (s : string) : scanned := scan_from machine_init s.

(** ** encoding/json: filling a Go value *)

(** How [encoding/json] fills a value of a Go type from a JSON value
    and its source bytes. The library derives this from the type by
    reflection; the result is the value as far as it was filled and the
    first error that was saved. *)
Class Unmarshal (T : Type) := unmarshal : string -> json -> T -> T * option error.

(** [decodeState.saveError]: the first error is the one reported. *)
Definition saveError (saved new : option error) : option error :=
  match saved with
  | Some _ => saved
  | None => new
  end.

(** The name of the JSON kind of a value, as [UnmarshalTypeError] has it. *)
Definition json_kind (v : json) : string :=
  match v with
  | JNull => "null"
  | JBool _ => "bool"
  | JNumber _ => "number"
  | JString _ => "string"
  | JArray _ => "array"
  | JObject _ => "object"
  end.

(** The fold of a key under which the decoder looks up a field when no
    field has the exact name: ASCII letters in upper case; of the other
    runes, the two whose fold is an ASCII letter, U+017F (long s) and
    U+212A (Kelvin sign). Other bytes are kept: their folds are not
    ASCII, so they never match the name of one of the fields below. *)
Fixpoint foldName (s : string) : string :=
  match s with
  | EmptyString => EmptyString
  | String c rest =>
      let other :=
        String (if in_range "a" "z" c then ascii_of_N (byte_val c - 32) else c)
               (foldName rest) in
      match rest with
      | String c2 rest2 =>
          if (byte_val c =? 197)%N && (byte_val c2 =? 191)%N
          then String "S" (foldName rest2)
          else
            match rest2 with
            | String c3 rest3 =>
                if (byte_val c =? 226)%N && (byte_val c2 =? 132)%N
                   && (byte_val c3 =? 170)%N
                then String "K" (foldName rest3)
                else other
            | EmptyString => other
            end
      | EmptyString => other
      end
  end.

(** The object key [key] names the struct field tagged [name]. *)
Definition field_matches (name key : string) : bool :=
  string_eqb key name || string_eqb (foldName key) (foldName name).

(** ** The Raw fragment *)

(** [type Raw []byte]. *)
Definition Raw : Type := string.

(** [Raw.Bytes]. *)
Definition Raw_Bytes (r : Raw) : string := r.

(** [Raw.String]: the content of a buffer over the bytes. *)
Definition Raw_String (r : Raw) : string := r.

(** [Raw.MarshalJSON]: the bytes and a nil error. *)
Definition MarshalJSON (m : Raw) : string * option error := (m, None).

(** [Raw.UnmarshalJSON]: [*m = data], and a nil error. *)
Definition UnmarshalJSON (m : Raw) (data : string) : Raw * option error :=
  (data, None).

(** [Raw] implements [json.Unmarshaler]: the decoder hands it the source
    bytes of the value, whatever the value is. *)
#[global] Instance Raw_Unmarshal : Unmarshal Raw :=
  fun raw _ m => UnmarshalJSON m raw.

(** ** Decode targets *)

(** The methods of the embedded [Error] that [transport.go] calls
    through the [Response] interface, and the way [encoding/json] fills
    an [Error]. They are declared outside [transport.go] and are
    parameters here. *)
Class ErrorMethods := {
  Error_ServerError : Error -> option error;
  Error_setRequest : Request -> Error -> Error;
  Error_Unmarshal :: Unmarshal Error
}.

(** The [Response] interface, with the way [encoding/json] fills the
    value behind it. *)
Class Response (R : Type) := {
  ServerError : R -> option error;
  setRequest : Request -> R -> R;
  Response_Unmarshal :: Unmarshal R
}.

(** The shape of a decode target, as the comment on [Response] gives it:
    [struct { Error `json:"error"`; Response T `json:"response"` }].
    [RawResponse] is this struct with [T = Raw]. *)
Record Data (T : Type) := mkData {
  Data_Error : Error;
  Data_Response : T
}.
Arguments mkData {T} _ _.
Arguments Data_Error {T} _.
Arguments Data_Response {T} _.

Definition RawResponse : Type := Data Raw.

Definition zero_Request : Request := mkRequest EmptyString EmptyString ∅.
Definition zero_Error : Error := mkError 0 EmptyString [] zero_Request.

(** [&RawResponse{}]. *)
Definition zero_RawResponse : RawResponse := mkData zero_Error EmptyString.

(** One member of a JSON object into the struct: the field that the key
    names is filled, a key that names no field is skipped. *)
Definition Data_member `{ErrorMethods} {T} `{Unmarshal T}
    (acc : Data T * option error) (member : string * (string * json))
    : Data T * option error :=
  let '(d, saved) := acc in
  let '(key, (raw, v)) := member in
  if field_matches "error" key then
    let '(e, err) := unmarshal raw v (Data_Error d) in
    (mkData e (Data_Response d), saveError saved err)
  else if field_matches "response" key then
    let '(r, err) := unmarshal raw v (Data_Response d) in
    (mkData (Data_Error d) r, saveError saved err)
  else (d, saved).

(** A JSON value into the struct: the members of an object in their
    order, nothing for [null], a type error for any other value. *)
#[global] Instance Data_Unmarshal `{ErrorMethods} {T} `{Unmarshal T} : Unmarshal (Data T) :=
  fun raw v d =>
    match v with
    | JObject members => fold_left Data_member members (d, None)
    | JNull => (d, None)
    | _ => (d, Some (UnmarshalTypeError (json_kind v) "Data"))
    end.

(** The struct implements [Response] through the methods that the
    embedded [Error] promotes. *)
#[global] Instance Data_Response_impl `{ErrorMethods} {T} `{Unmarshal T} : Response (Data T) := {
  ServerError d := Error_ServerError (Data_Error d);
  setRequest r d := mkData (Error_setRequest r (Data_Error d)) (Data_Response d)
}.

(** ** Streams *)

(** The value behind an [io.Reader], as one [Decode] call can observe
    it: the bytes that its [Read] calls deliver before the first error,
    that error ([io.EOF] at the end of the data), and whether the value
    also has a [Close] method (is an [io.ReadCloser]). *)
Record Reader := mkReader {
  content : string;
  failure : error;
  closer : bool
}.

(** [errorReader] of the package's tests: [Read] fails at once with
    [io.ErrUnexpectedEOF]; it has a [Close]. *)
Definition errorReader : Reader := mkReader EmptyString io_ErrUnexpectedEOF true.

(** [bytes.NewBufferString s]: no [Close]. *)
Definition NewBufferString (s : string) : Reader := mkReader s io_EOF false.

(** [ioutil.NopCloser r]. *)
Definition NopCloser (r : Reader) : Reader := mkReader (content r) (failure r) true.

(** [json.nonSpace]. *)
Definition nonSpace (s : string) : bool := negb (all_bytes isSpace s).

(** What [json.NewDecoder(input).Decode(v)] yields: the first value of
    the stream, filled into [v]; the syntax error of a rejected byte; or,
    when the bytes run out before a value is complete, the error of the
    stream, [io.EOF] after bytes other than spaces being reported as
    [io.ErrUnexpectedEOF]. *)
Definition decode_stream {R} `{Unmarshal R} (input : Reader) (v : R) : R * option error :=
  match scan (content input) with
  | Complete raw j _ => unmarshal raw j v
  | Invalid => (v, Some (SyntaxError "invalid character"))
  | Incomplete verdict =>
      match failure input with
      | io_EOF =>
          match verdict with
          | EndsValue raw j => unmarshal raw j v
          | _ => (v, Some (if nonSpace (content input)
                           then io_ErrUnexpectedEOF else io_EOF))
          end
      | e => (v, Some e)
      end
  end.

(** What [json.Unmarshal(data, v)] yields: [checkValid] first, with a
    syntax error for a text that is not one JSON value, then the value
    filled into [v]. Of the messages of syntax errors only that of an
    input that ends too early is spelled as the library spells it. *)
Definition unmarshal_bytes {V} `{Unmarshal V} (data : string) (v : V) : V * option error :=
  match scan data with
  | Complete raw j rest =>
      if all_bytes isSpace rest then unmarshal raw j v
      else (v, Some (SyntaxError "invalid character after top-level value"))
  | Invalid => (v, Some (SyntaxError "invalid character"))
  | Incomplete (EndsValue raw j) => unmarshal raw j v
  | Incomplete SpaceRejected => (v, Some (SyntaxError "invalid character"))
  | Incomplete NeedsMore => (v, Some (SyntaxError "unexpected end of JSON input"))
  end.

(** ** Effects *)

(** The calls whose number and order the properties are about. *)
Inductive event :=
| EvSetRequest (request : Request)
| EvTransport (req : HTTPRequest)
| EvDecode
| EvServerError
| EvClose
| EvUnmarshal (data : string).

(** A computation that appends to the trace of calls. *)
Definition M (A : Type) : Type := list event -> A * list event.

#[global] Instance M_ret : MRet M := fun A (a : A) trace => (a, trace).

#[global] Instance M_bind : MBind M :=
  fun A B (k : A -> M B) (m : M A) trace =>
    let '(a, trace') := m trace in k a trace'.

Definition emit (e : event) : M unit := fun trace => (tt, trace ++ [e])%list.

(** [defer f(); body]: the deferred call runs when the body has
    produced its result. *)
Definition defer {A} (deferred : M unit) (body : M A) : M A :=
  a ← body; _ ← deferred; mret a.

(** The result and the trace of a computation that starts with an
    empty trace. *)
Definition run {A} (m : M A) : A * list event := m [].

Definition count (P : event -> bool) (trace : list event) : nat :=
  List.length (List.filter P trace).

Definition is_close (e : event) : bool :=
  match e with EvClose => true | _ => false end.
Definition is_hook (e : event) : bool :=
  match e with EvServerError => true | _ => false end.
Definition is_decode (e : event) : bool :=
  match e with EvDecode => true | _ => false end.
Definition is_unmarshal (e : event) : bool :=
  match e with EvUnmarshal _ => true | _ => false end.

(** ** The response processor *)

Record vkResponseProcessor := mkProcessor { input : Reader }.

(** [Process]. *)
Definition Process (input : Reader) : vkResponseProcessor := mkProcessor input.

(** [rc.Close()]. *)
Definition rc_Close : M unit := emit EvClose.

(** [decoder.Decode(response)] on a decoder over [input]. *)
Definition Decoder_Decode {R} `{Unmarshal R} (input : Reader) (response : R)
    : M (R * option error) :=
  _ ← emit EvDecode; mret (decode_stream input response).

(** [response.ServerError()]. *)
Definition call_ServerError {R} `{Response R} (response : R) : M (option error) :=
  _ ← emit EvServerError; mret (ServerError response).

(** [json.Unmarshal(data, v)]. *)
Definition json_Unmarshal {V} `{Unmarshal V} (data : string) (v : V)
    : M (V * option error) :=
  _ ← emit (EvUnmarshal data); mret (unmarshal_bytes data v).

(** [vkResponseProcessor.To]. The target is behind a pointer: the
    result carries it as the call leaves it, next to the error. *)
Definition To {R} `{Response R} (d : vkResponseProcessor) (response : R)
    : M (R * option error) :=
  defer (if closer (input d) then rc_Close else mret tt)
    ('(response, err) ← Decoder_Decode (input d) response;
     match err with
     | Some e => mret (response, Some e)
     | None =>
         err ← call_ServerError response;
         mret (response, err)
     end).

(** [vkResponseProcessor.Raw]. *)
Definition vkResponseProcessor_Raw `{ErrorMethods} {V} `{Unmarshal V}
    (d : vkResponseProcessor) (v : V) : M (V * option error) :=
  let raw := zero_RawResponse in
  '(raw, err) ← To d raw;
  match err with
  | Some e => mret (v, Some e)
  | None => json_Unmarshal (Raw_Bytes (Data_Response raw)) v
  end.

(** ** The client *)

(** [http.Response], as far as [Client.Do] reads it. *)
Record HTTPResponse := mkHTTPResponse {
  StatusCode : Z;
  Body : Reader
}.

(** [http.StatusOK]. *)
Definition StatusOK : Z := 200.

(** Modelled from the spec: the [Client] struct is declared outside
    [transport.go]; [Client.Do] reads its field [httpClient], an
    [HTTPClient]. The one method of that interface, [Do], yields a
    response pointer, which may be nil, and an error, which may be nil. *)
Record Client := mkClient {
  httpClient : HTTPRequest -> option HTTPResponse * option error
}.

(** [c.httpClient.Do(req)]. *)
Definition httpClient_Do (c : Client) (req : HTTPRequest)
    : M (option HTTPResponse * option error) :=
  _ ← emit (EvTransport req); mret (httpClient c req).

(** [response.setRequest(request)]. *)
Definition call_setRequest {R} `{Response R} (request : Request) (response : R) : M R :=
  _ ← emit (EvSetRequest request); mret (setRequest request response).

Definition nil_dereference : error :=
  errorString "runtime error: invalid memory address or nil pointer dereference".

(** [Client.Do]. *)
Definition Do {R} `{Response R} (c : Client) (request : Request) (response : R)
    : M (outcome (R * option error)) :=
  response ← call_setRequest request response;
  match HTTP request with
  | Panics e => mret (Panics e)
  | Returns req =>
      '(res, err) ← httpClient_Do c req;
      match err with
      | Some e => mret (Returns (response, Some e))
      | None =>
          match res with
          | None => mret (Panics nil_dereference)
          | Some res =>
              if negb (StatusCode res =? StatusOK)%Z
              then mret (Returns (response, Some ErrBadResponseCode))
              else r ← To (Process (Body res)) response; mret (Returns r)
          end
      end
  end.

(** The transport of [TestDo], "Bad status": a response with status 400
    and no error. *)
Definition bad_status_client : Client :=
  mkClient (fun _ =>
    (Some (mkHTTPResponse 400 (NopCloser (NewBufferString EmptyString))), None)).

(** The transport of [TestDo], "Http error": a response and an error. *)
Definition failing_client : Client :=
  mkClient (fun _ =>
    (Some (mkHTTPResponse 400 (NopCloser (NewBufferString EmptyString))),
     Some (errorString "transport failure"))).

(** The descriptor that [Request.HTTP] hands to the transport. *)
Definition request_descriptor (request : Request) : HTTPRequest :=
  mkHTTPRequest defaultMethod (request_url request) defaultHost.

(** ** The methods of Error, from the specification *)

(** The decimal value of an integer literal, if the literal is one that
    fits a 64-bit Go [int]: an optional minus sign and digits. *)
Fixpoint digits_value (acc : Z) (s : string) : option Z :=
  match s with
  | EmptyString => Some acc
  | String c rest =>
      if is_digit c
      then digits_value (acc * 10 + Z.of_N (byte_val c - byte_val "0")) rest
      else None
  end.

Definition int_of_literal (lit : string) : option Z :=
  let value :=
    match lit with
    | String c rest =>
        if Ascii.eqb c "-" then option_map Z.opp (digits_value 0 rest)
        else digits_value 0 lit
    | EmptyString => None
    end in
  match value with
  | Some z =>
      if ((- 9223372036854775808 <=? z) && (z <=? 9223372036854775807))%Z
      then Some z else None
  | None => None
  end.

(** A JSON value into a Go [string] field. *)
Definition string_field (name : string) (v : json) (old : string)
    : string * option error :=
  match v with
  | JString quoted => (unquote quoted, None)
  | JNull => (old, None)
  | _ => (old, Some (UnmarshalTypeError (json_kind v) name))
  end.

(** A JSON value into a Go [int] field. *)
Definition int_field (name : string) (v : json) (old : Z) : Z * option error :=
  match v with
  | JNumber lit =>
      match int_of_literal lit with
      | Some z => (z, None)
      | None => (old, Some (UnmarshalTypeError ("number " +:+ lit) name))
      end
  | JNull => (old, None)
  | _ => (old, Some (UnmarshalTypeError (json_kind v) name))
  end.

Definition param_member (acc : (string * string) * option error)
    (member : string * (string * json)) : (string * string) * option error :=
  let '((k, x), saved) := acc in
  let '(key, (_, v)) := member in
  if field_matches "key" key then
    let '(k', err) := string_field "key" v k in ((k', x), saveError saved err)
  else if field_matches "value" key then
    let '(x', err) := string_field "value" v x in ((k, x'), saveError saved err)
  else acc.

(** One element of [request_params]: an object [{key, value}]. *)
Definition param_item (acc : list (string * string) * option error)
    (item : string * json) : list (string * string) * option error :=
  let '(ps, saved) := acc in
  match snd item with
  | JObject members =>
      let '(p, err) := fold_left param_member members ((EmptyString, EmptyString), None) in
      ((ps ++ [p])%list, saveError saved err)
  | JNull => ((ps ++ [(EmptyString, EmptyString)])%list, saved)
  | v => ((ps ++ [(EmptyString, EmptyString)])%list,
          saveError saved (Some (UnmarshalTypeError (json_kind v) "request_params")))
  end.

Definition params_field (v : json) (old : list (string * string))
    : list (string * string) * option error :=
  match v with
  | JArray items => fold_left param_item items ([], None)
  | JNull => ([], None)
  | _ => (old, Some (UnmarshalTypeError (json_kind v) "request_params"))
  end.

Definition spec_Error_member (acc : Error * option error)
    (member : string * (string * json)) : Error * option error :=
  let '(e, saved) := acc in
  let '(key, (_, v)) := member in
  if field_matches "error_code" key then
    let '(code, err) := int_field "error_code" v (Code e) in
    (mkError code (Message e) (Params e) (Request_ e), saveError saved err)
  else if field_matches "error_msg" key then
    let '(msg, err) := string_field "error_msg" v (Message e) in
    (mkError (Code e) msg (Params e) (Request_ e), saveError saved err)
  else if field_matches "request_params" key then
    let '(ps, err) := params_field v (Params e) in
    (mkError (Code e) (Message e) ps (Request_ e), saveError saved err)
  else acc.

(** Modelled from the spec: the methods of [Error] and its JSON layout
    are declared outside [transport.go]. By the spec, the wire form of
    an error is an object [{error_code, error_msg, request_params:
    [{key, value}, ...]}]; a decode target reports a server-side error
    by inspecting its embedded error information and returns it as the
    classified error (here: when the code is not zero, the error value
    being the [Error] itself); and it retains a copy of the originating
    [Request], which is no part of the wire form. *)
Definition spec_ErrorMethods : ErrorMethods := {|
  Error_ServerError e := if (Code e =? 0)%Z then None else Some (ServerErr e);
  Error_setRequest r e := mkError (Code e) (Message e) (Params e) r;
  Error_Unmarshal := fun raw v e =>
    match v with
    | JObject members => fold_left spec_Error_member members (e, None)
    | JNull => (e, None)
    | _ => (e, Some (UnmarshalTypeError (json_kind v) "Error"))
    end
|}.

(** ** The data of the package's tests *)

(** A JSON text written with ['] for the double quote. *)
Fixpoint json_text (s : string) : string :=
  match s with
  | EmptyString => EmptyString
  | String c rest => String (if Ascii.eqb c "'" then dquote else c) (json_text rest)
  end.

(** [sData] of [TestResponseProcessor] (with single spaces for its line
    breaks and tabs). *)
Definition sData : string :=
  json_text "{ 'response': [ { 'id': 1, 'first_name': 'Павел', 'last_name': 'Дуров' } ] }".

(** The error envelope of the tests. *)
Definition sError : string :=
  json_text "{'error':{'error_code':10,'error_msg':'Internal server error: could not get application', 'request_params':[{'key':'oauth','value':'1'},{'key':'method','value':'users.get'}, {'key':'user_id','value':'1'},{'key':'v','value':'5.35'}]}}".

(** An envelope with neither an [error] nor a [response] member. *)
Definition sEmptyEnvelope : string := json_text "{'ok': true}".

Definition id_member (acc : Z * option error) (member : string * (string * json))
    : Z * option error :=
  let '(id, saved) := acc in
  let '(key, (_, v)) := member in
  if field_matches "id" key then
    let '(id', err) := int_field "id" v id in (id', saveError saved err)
  else acc.

Definition id_item (acc : list Z * option error) (item : string * json)
    : list Z * option error :=
  let '(ids, saved) := acc in
  match snd item with
  | JObject members =>
      let '(id, err) := fold_left id_member members (0%Z, None) in
      ((ids ++ [id])%list, saveError saved err)
  | JNull => ((ids ++ [0%Z])%list, saved)
  | v => ((ids ++ [0%Z])%list,
          saveError saved (Some (UnmarshalTypeError (json_kind v) "Data")))
  end.

(** The target of [TestRawResponseProcessor],
    [[]struct { ID int64 `json:"id"` }], as the list of its ids. *)
Definition ids_Unmarshal : Unmarshal (list Z) :=
  fun raw v old =>
    match v with
    | JArray items => fold_left id_item items ([], None)
    | JNull => ([], None)
    | _ => (old, Some (UnmarshalTypeError (json_kind v) "Data"))
    end.

(** ** Further definitions for the statements *)

(** The bytes that the rendered URL of a request can hold: ASCII letters
    and digits, the marks that no mode escapes, the reserved bytes that
    a path keeps, and [%] and [?]. *)
Definition url_byte (c : ascii) : bool :=
  is_alnum c || byte_in c "-_.~$&+,/:;=@%?".





(** A request whose method name climbs out of the API path prefix. *)
Definition climbing_request : Request :=
  mkRequest "../oauth" EmptyString ∅.

Definition is_transport (e : event) : bool :=
  match e with EvTransport _ => true | _ => false end.
Definition is_setRequest (e : event) : bool :=
  match e with EvSetRequest _ => true | _ => false end.

(** The source bytes of the last member of an envelope whose key names
    the [response] field, or [init] when there is none. *)
Fixpoint last_response (members : list (string * (string * json))) (init : string)
    : string :=
  match members with
  | [] => init
  | (key, (raw, _)) :: rest =>
      last_response rest (if field_matches "response" key then raw else init)
  end.

(** A target that holds the error of an earlier call. *)
Definition stale_target : RawResponse :=
  mkData (mkError 10 "stale" [] zero_Request) EmptyString.

(** A transport that returns a nil response and a nil error. *)
Definition nil_client : Client := mkClient (fun _ => (None, None)).

(** A transport that returns status 200 and the envelope [sData]. *)
Definition ok_client : Client :=
  mkClient (fun _ =>
    (Some (mkHTTPResponse 200 (NopCloser (NewBufferString sData))), None)).

(** An envelope with a member that names no field and a response. *)
Definition sSmall : string := json_text "{'ok':true,'response':[1]}".
(** * Properties *)

(** ** Strings *)

Ltac each_byte c := destruct c as [[] [] [] [] [] [] [] []].

Lemma append_cons (c : ascii) (s t : string) :
  String c s +:+ t = String c (s +:+ t).
Proof. reflexivity. Qed.

Lemma append_nil_l (s : string) : EmptyString +:+ s = s.
Proof. reflexivity. Qed.

Lemma append_nil_r (s : string) : s +:+ EmptyString = s.
Proof.
  induction s as [|c s IH]; [reflexivity|].
  now rewrite append_cons, IH.
Qed.

Lemma append_assoc (a b c : string) : (a +:+ b) +:+ c = a +:+ (b +:+ c).
Proof.
  induction a as [|x a IH]; [reflexivity|].
  now rewrite !append_cons, IH.
Qed.

Lemma all_bytes_app P (a b : string) :
  all_bytes P (a +:+ b) = all_bytes P a && all_bytes P b.
Proof.
  induction a as [|c a IH]; [reflexivity|].
  rewrite append_cons. simpl. rewrite IH. now rewrite andb_assoc.
Qed.

Lemma plain_no_ctl (s : string) :
  all_bytes plain_byte s = true -> stringContainsCTLByte s = false.
Proof.
  induction s as [|c s IH]; simpl; [reflexivity|].
  intros [Hc Hs]%andb_prop. rewrite (IH Hs).
  unfold plain_byte in Hc.
  apply andb_prop in Hc as [[Hc _]%andb_prop _].
  apply negb_true_iff in Hc. rewrite orb_false_r. exact Hc.
Qed.

Lemma plain_no_hash (s : string) :
  all_bytes plain_byte s = true -> contains_byte "#" s = false.
Proof.
  induction s as [|c s IH]; simpl; [reflexivity|].
  intros [Hc Hs]%andb_prop. rewrite (IH Hs).
  unfold plain_byte in Hc.
  apply andb_prop in Hc as [[_ Hc]%andb_prop _].
  apply negb_true_iff in Hc. now rewrite Hc.
Qed.

Lemma plain_no_question (s : string) :
  all_bytes plain_byte s = true -> contains_byte "?" s = false.
Proof.
  induction s as [|c s IH]; simpl; [reflexivity|].
  intros [Hc Hs]%andb_prop. rewrite (IH Hs).
  unfold plain_byte in Hc.
  apply andb_prop in Hc as [_ Hc].
  apply negb_true_iff in Hc. now rewrite Hc.
Qed.

Lemma Cut_absent c (s : string) :
  contains_byte c s = false -> Cut c s = (s, EmptyString, false).
Proof.
  induction s as [|d s IH]; simpl; [reflexivity|].
  intros [Hd Hs]%orb_false_elim. rewrite Hd, (IH Hs). reflexivity.
Qed.

Lemma Cut_first c (a b : string) :
  contains_byte c a = false -> Cut c (a +:+ String c b) = (a, b, true).
Proof.
  induction a as [|d a IH]; rewrite ?append_cons, ?append_nil_l; simpl.
  - intros _. now rewrite Ascii.eqb_refl.
  - intros [Hd Ha]%orb_false_elim. rewrite Hd, (IH Ha). reflexivity.
Qed.

Lemma ends_with_app_absent c (a b : string) :
  b <> EmptyString -> contains_byte c b = false -> ends_with c (a +:+ b) = false.
Proof.
  intros Hb Hc. induction a as [|d a IH]; rewrite ?append_cons, ?append_nil_l.
  - clear Hb. induction b as [|d b IH]; simpl; [reflexivity|].
    simpl in Hc. apply orb_false_elim in Hc as [Hd Hb].
    destruct b; [exact Hd | now apply IH].
  - simpl. destruct (a +:+ b) eqn:E; [|exact IH].
    destruct a; [contradiction | discriminate].
Qed.

Lemma substring_all (s : string) : String.substring 0 (String.length s) s = s.
Proof. induction s as [|c s IH]; simpl; [reflexivity | now rewrite IH]. Qed.

Lemma string_eqb_refl (s : string) : string_eqb s s = true.
Proof. apply String.eqb_refl. Qed.

(** ** Escaping and unescaping *)

Lemma escape_app (a b : string) mode :
  escape (a +:+ b) mode = escape a mode +:+ escape b mode.
Proof.
  induction a as [|c a IH]; [reflexivity|].
  rewrite append_cons. simpl. rewrite IH. destruct (_ && _); [reflexivity|].
  destruct (shouldEscape c mode); reflexivity.
Qed.

(** What [escape] writes for one byte is ordinary text for [url.Parse]. *)
Lemma escape_byte_plain (c : ascii) (s : string) (mode : encoding) :
  mode <> encodeHost ->
  all_bytes plain_byte (escape (String c s) mode)
  = all_bytes plain_byte (escape s mode).
Proof.
  intros Hm. destruct mode; [| contradiction |]; each_byte c; reflexivity.
Qed.

Lemma escape_plain (s : string) (mode : encoding) :
  mode <> encodeHost -> all_bytes plain_byte (escape s mode) = true.
Proof.
  intros Hm. induction s as [|c s IH]; [reflexivity|].
  now rewrite escape_byte_plain.
Qed.

(** Unescaping undoes the escaping of a path, byte by byte. *)
Lemma unescape_escape_byte (c : ascii) (s : string) :
  unescape (escape (String c s) encodePath) encodePath
  = bind_result (unescape (escape s encodePath) encodePath)
      (fun t => Ok (String c t)).
Proof. each_byte c; reflexivity. Qed.

Lemma unescape_escape_path (p : string) :
  unescape (escape p encodePath) encodePath = Ok p.
Proof.
  induction p as [|c p IH]; [reflexivity|].
  rewrite unescape_escape_byte, IH. reflexivity.
Qed.

Lemma escape_path_rooted (p : string) :
  starts_with "/" p = true ->
  exists e, escape p encodePath = String "/" e.
Proof.
  destruct p as [|c p]; simpl; [discriminate|].
  intros Hc. apply Ascii.eqb_eq in Hc. subst c. simpl. eauto.
Qed.

(** ** path.Clean keeps a rooted path rooted *)

Lemma starts_with_app c (s t : string) :
  starts_with c s = true -> starts_with c (s +:+ t) = true.
Proof. destruct s; [discriminate | exact id]. Qed.

Lemma starts_with_take c (s : string) (w : nat) :
  starts_with c s = true -> 1 <= w -> starts_with c (take_string w s) = true.
Proof.
  destruct s; [discriminate|]. destruct w; [lia|]. intros H _. exact H.
Qed.

Lemma backtrack_ge (fuel : nat) (out : string) (w dotdot : nat) :
  dotdot <= w -> dotdot <= backtrack fuel out w dotdot.
Proof.
  revert w. induction fuel as [|fuel IH]; intros w Hw; simpl; [exact Hw|].
  destruct (dotdot <? w)%nat eqn:E; simpl; [|exact Hw].
  destruct (negb _); [|exact Hw].
  apply IH. apply Nat.ltb_lt in E. lia.
Qed.

Lemma clean_loop_rooted (n : nat) :
  forall (path : string) (copying : bool) (out : string),
    String.length path <= n ->
    starts_with "/" out = true ->
    starts_with "/" (clean_loop true copying path out 1) = true.
Proof.
  induction n as [|n IH]; intros path copying out Hlen Hout.
  - destruct path; [exact Hout | simpl in Hlen; lia].
  - destruct path as [|c rest]; [exact Hout|].
    simpl in Hlen.
    assert (Hrest : String.length rest <= n) by lia.
    simpl.
    destruct copying.
    { destruct (Ascii.eqb c "/"); apply IH; auto using starts_with_app. }
    destruct (Ascii.eqb c "/"); [now apply IH|].
    destruct (Ascii.eqb c "." && at_element_end rest); [now apply IH|].
    assert (Helem : forall o, starts_with "/" o = true ->
              starts_with "/" (clean_loop true true rest (o +:+ String c EmptyString) 1) = true)
      by (intros o Ho; apply IH; auto using starts_with_app).
    assert (Hdefault :
      starts_with "/"
        (clean_loop true true rest
           ((if negb (Nat.eqb (String.length out) 1) || false
             then out +:+ "/" else out) +:+ String c EmptyString) 1) = true).
    { apply Helem. destruct (_ || _); auto using starts_with_app. }
    destruct rest as [|c2 rest2]; [exact Hdefault|].
    destruct (Ascii.eqb c "." && Ascii.eqb c2 "." && at_element_end rest2);
      [|exact Hdefault].
    simpl in Hrest.
    destruct (1 <? String.length out)%nat eqn:E.
    + apply IH; [lia|]. apply Nat.ltb_lt in E.
      apply starts_with_take; [exact Hout|].
      apply backtrack_ge. lia.
    + simpl. apply IH; [lia | exact Hout].
Qed.

Lemma Clean_rooted (path : string) :
  starts_with "/" path = true -> starts_with "/" (Clean path) = true.
Proof.
  destruct path as [|c rest]; [discriminate|].
  intros Hc. unfold Clean. simpl in Hc. rewrite Hc.
  pose proof (clean_loop_rooted (String.length rest) rest false "/"
                (le_n _) eq_refl) as H.
  destruct (clean_loop true false rest "/" 1); [discriminate H|].
  exact H.
Qed.

Lemma request_path_Clean (method : string) :
  path_Join [defaultPath; method] = Clean ("/method//" +:+ method).
Proof. reflexivity. Qed.

(** The path of every request is rooted. *)
Lemma request_path_rooted (method : string) :
  starts_with "/" (path_Join [defaultPath; method]) = true.
Proof. rewrite request_path_Clean. now apply Clean_rooted. Qed.

Lemma clean_loop_copy (rooted : bool) (s out : string) (dotdot : nat) :
  contains_byte "/" s = false ->
  clean_loop rooted true s out dotdot = out +:+ s.
Proof.
  revert out. induction s as [|c s IH]; intros out Hs; simpl.
  - now rewrite append_nil_r.
  - simpl in Hs. apply orb_false_elim in Hs as [Hc Hs].
    rewrite Hc, (IH _ Hs), append_assoc. reflexivity.
Qed.

Lemma at_element_end_plain (r : string) :
  contains_byte "/" r = false -> at_element_end r = negb (nonempty r).
Proof.
  destruct r as [|d r]; [reflexivity|]. simpl. intros [Hd _]%orb_false_elim.
  unfold at_element_end. simpl. exact Hd.
Qed.

(** At the start of a plain element the loop copies it, after a [/]
    unless the output is the root alone. *)
Lemma clean_loop_element (m out : string) :
  plain_method m = true ->
  clean_loop true false m out 1
  = (if negb (Nat.eqb (String.length out) 1) then out +:+ "/" else out) +:+ m.
Proof.
  unfold plain_method. intros [[[Hne Hslash]%andb_prop Hdot]%andb_prop Hdd]%andb_prop.
  apply negb_true_iff in Hslash, Hdot, Hdd.
  destruct m as [|c m]; [discriminate|]. clear Hne.
  simpl in Hslash. apply orb_false_elim in Hslash as [Hc Hm].
  set (out' := if negb (Nat.eqb (String.length out) 1) then out +:+ "/" else out).
  assert (Hcopy : clean_loop true true m (out' +:+ String c EmptyString) 1
                  = out' +:+ String c m).
  { rewrite clean_loop_copy by exact Hm. rewrite append_assoc. reflexivity. }
  cbn [clean_loop]. rewrite Hc, (at_element_end_plain m Hm).
  rewrite orb_false_r. fold out'.
  destruct (Ascii.eqb c ".") eqn:Ec; cbn [andb].
  - apply Ascii.eqb_eq in Ec. subst c.
    destruct m as [|c2 m2]; [discriminate Hdot|].
    cbn [nonempty string_eqb String.eqb negb].
    simpl in Hm. apply orb_false_elim in Hm as [Hc2 Hm2].
    rewrite (at_element_end_plain m2 Hm2).
    destruct (Ascii.eqb c2 ".") eqn:Ec2; cbn [andb].
    + apply Ascii.eqb_eq in Ec2. subst c2.
      destruct m2; [discriminate Hdd|]. exact Hcopy.
    + exact Hcopy.
  - destruct m; exact Hcopy.
Qed.


(** ** The order of the keys *)

Lemma ascii_compare_lt (a b : ascii) :
  Ascii.compare a b = Lt <-> (N_of_ascii a < N_of_ascii b)%N.
Proof. unfold Ascii.compare. apply N.compare_lt_iff. Qed.

Lemma ascii_compare_gt (a b : ascii) :
  Ascii.compare a b = Gt <-> (N_of_ascii b < N_of_ascii a)%N.
Proof. unfold Ascii.compare. apply N.compare_gt_iff. Qed.

Lemma ascii_compare_refl (a : ascii) : Ascii.compare a a = Eq.
Proof. unfold Ascii.compare. apply N.compare_refl. Qed.

Lemma string_compare_refl (s : string) : String.compare s s = Eq.
Proof.
  induction s as [|c s IH]; simpl; [reflexivity|].
  now rewrite ascii_compare_refl.
Qed.

Lemma string_leb_trans (a b c : string) :
  String.leb a b = true -> String.leb b c = true -> String.leb a c = true.
Proof.
  unfold String.leb. revert b c.
  induction a as [|x a IH]; intros [|y b] [|z c]; simpl; try easy.
  destruct (Ascii.compare x y) eqn:Exy; try easy;
    destruct (Ascii.compare y z) eqn:Eyz; try easy.
  - apply Ascii.compare_eq_iff in Exy, Eyz. subst.
    rewrite ascii_compare_refl. apply IH.
  - apply Ascii.compare_eq_iff in Exy. subst. now rewrite Eyz.
  - apply Ascii.compare_eq_iff in Eyz. subst. now rewrite Exy.
  - apply (proj1 (ascii_compare_lt _ _)) in Exy, Eyz.
    assert (H : Ascii.compare x z = Lt) by (apply ascii_compare_lt; lia).
    now rewrite H.
Qed.

#[global] Instance string_le_trans : Transitive string_le.
Proof. intros a b c. apply string_leb_trans. Qed.

#[global] Instance string_le_total : Total string_le.
Proof. intros a b. apply String.leb_total. Qed.

#[global] Instance string_le_refl : Reflexive string_le.
Proof.
  intros a. unfold string_le, String.leb. now rewrite string_compare_refl.
Qed.

(** ** The keys and pairs that [Values.Encode] writes *)

Lemma sorted_keys_perm (v : url_Values) : sorted_keys v ≡ₚ (map_to_list v).*1.
Proof. apply merge_sort_Permutation. Qed.

Lemma sorted_keys_NoDup (v : url_Values) : NoDup (sorted_keys v).
Proof. rewrite sorted_keys_perm. apply NoDup_fst_map_to_list. Qed.

Lemma sorted_keys_elem (v : url_Values) (k : string) :
  k ∈ sorted_keys v <-> is_Some (v !! k).
Proof.
  rewrite sorted_keys_perm, list_elem_of_fmap. split.
  - intros [[k' vs] [-> H]]. apply elem_of_map_to_list in H. eauto.
  - intros [vs H]. exists (k, vs). split; [reflexivity|].
    now apply elem_of_map_to_list.
Qed.


Lemma values_for_app k (a b : list (string * string)) :
  values_for k (a ++ b)%list = (values_for k a ++ values_for k b)%list.
Proof. unfold values_for. now rewrite filter_app, fmap_app. Qed.

Lemma values_for_same k (vs : list string) :
  values_for k (map (pair k) vs) = vs.
Proof.
  unfold values_for. induction vs as [|x vs IH]; [reflexivity|].
  cbn [map]. rewrite filter_cons_True by reflexivity.
  rewrite fmap_cons, IH. reflexivity.
Qed.

Lemma values_for_other k k' (vs : list string) :
  k' ≠ k -> values_for k (map (pair k') vs) = [].
Proof.
  intros Hne. unfold values_for. induction vs as [|x vs IH]; [reflexivity|].
  cbn [map]. rewrite filter_cons_False by exact Hne. exact IH.
Qed.

Lemma values_for_flat_map (f : string -> list string) k (keys : list string) :
  NoDup keys ->
  values_for k (flat_map (fun k' => map (pair k') (f k')) keys)
  = if decide (k ∈ keys) then f k else [].
Proof.
  induction 1 as [|k' keys Hnotin Hnd IH]; [reflexivity|].
  simpl. rewrite values_for_app, IH.
  destruct (decide (k' = k)) as [->|Hne].
  - rewrite values_for_same.
    destruct (decide (k ∈ keys)) as [Hin|_]; [contradiction|].
    destruct (decide (k ∈ k :: keys)) as [_|Hout]; [apply app_nil_r|].
    exfalso. apply Hout. left.
  - rewrite values_for_other by exact Hne. simpl.
    destruct (decide (k ∈ keys)) as [Hin|Hin];
      destruct (decide (k ∈ k' :: keys)) as [Hin'|Hin']; try reflexivity.
    + exfalso. apply Hin'. now right.
    + exfalso. apply elem_of_cons in Hin' as [?|?]; congruence.
Qed.

(** For every key, [Values.Encode] writes the values of that key, in
    their order. *)
Lemma encode_pairs_values (v : url_Values) (k : string) :
  values_for k (encode_pairs v) = default [] (v !! k).
Proof.
  unfold encode_pairs.
  rewrite (values_for_flat_map (fun k => default [] (v !! k)))
    by apply sorted_keys_NoDup.
  destruct (decide (k ∈ sorted_keys v)) as [Hin|Hin]; [reflexivity|].
  destruct (v !! k) eqn:E; [|reflexivity].
  exfalso. apply Hin, sorted_keys_elem. rewrite E. eauto.
Qed.



(** ** The parameter set of a request *)

Lemma copy_params_id (old : url_Values) : copy_params old = old.
Proof.
  unfold copy_params.
  apply (map_fold_weak_ind (fun (r : url_Values) (m : url_Values) => r = m)).
  - reflexivity.
  - intros k v m r _ ->. reflexivity.
Qed.

Lemma Values_Add_lookup (key value : string) (v : url_Values) (k : string) :
  default [] (Values_Add key value v !! k)
  = (default [] (v !! k) ++ (if decide (k = key) then [value] else []))%list.
Proof.
  unfold Values_Add. destruct (decide (k = key)) as [->|Hne].
  - now rewrite lookup_insert_eq.
  - rewrite lookup_insert_ne by congruence. now rewrite app_nil_r.
Qed.

(** What the encoded parameter set holds for a key: the caller's values,
    then the protocol's. *)
Lemma request_values_lookup (r : Request) (k : string) :
  default [] (request_values r !! k)
  = (default [] (Values r !! k) ++ protocol_values r k)%list.
Proof.
  unfold request_values, protocol_values. rewrite copy_params_id.
  destruct (nonempty (Token r)).
  - rewrite !Values_Add_lookup, <- !app_assoc. reflexivity.
  - rewrite !Values_Add_lookup, <- !app_assoc.
    destruct (decide (k = paramToken)); now rewrite app_nil_r.
Qed.

Lemma request_pairs_values (r : Request) (k : string) :
  values_for k (encode_pairs (request_values r))
  = (default [] (Values r !! k) ++ protocol_values r k)%list.
Proof. now rewrite encode_pairs_values, request_values_lookup. Qed.

(** ** The query string is ordinary text, and not empty *)

Lemma encode_pair_plain (kv : string * string) :
  all_bytes plain_byte (encode_pair kv) = true.
Proof.
  unfold encode_pair, QueryEscape.
  rewrite !all_bytes_app, !escape_plain by discriminate. reflexivity.
Qed.

Lemma Join_plain (elems : list string) :
  Forall (fun e => all_bytes plain_byte e = true) elems ->
  all_bytes plain_byte (Join elems "&") = true.
Proof.
  induction 1 as [|e rest He Hrest IH]; [reflexivity|].
  destruct rest as [|e' rest]; [exact He|].
  change (Join (e :: e' :: rest) "&") with (e +:+ "&" +:+ Join (e' :: rest) "&").
  rewrite !all_bytes_app, He, IH. reflexivity.
Qed.

Lemma Values_Encode_plain (v : url_Values) :
  all_bytes plain_byte (Values_Encode v) = true.
Proof.
  unfold Values_Encode. apply Join_plain.
  apply Forall_forall. intros e He%list_elem_of_In.
  apply in_map_iff in He as [kv [<- _]]. apply encode_pair_plain.
Qed.

Lemma encode_pair_nonempty (kv : string * string) : encode_pair kv <> EmptyString.
Proof.
  unfold encode_pair. destruct (QueryEscape kv.1); discriminate.
Qed.

Lemma request_query_nonempty (r : Request) :
  Values_Encode (request_values r) <> EmptyString.
Proof.
  unfold Values_Encode.
  pose proof (request_pairs_values r paramVersion) as H.
  destruct (encode_pairs (request_values r)) as [|kv ps].
  - exfalso. unfold protocol_values in H.
    rewrite decide_True in H by reflexivity.
    destruct (default [] (Values r !! paramVersion)); discriminate H.
  - clear H. cbn [map].
    pose proof (encode_pair_nonempty kv) as Hkv.
    destruct ps as [|kv' ps]; [exact Hkv|].
    change (Join (encode_pair kv :: map encode_pair (kv' :: ps)) "&")
      with (encode_pair kv +:+ "&" +:+ Join (map encode_pair (kv' :: ps)) "&").
    destruct (encode_pair kv); [contradiction | discriminate].
Qed.

(** ** Rendering and parsing the URL of a request *)

Lemma contains_byte_app c (a b : string) :
  contains_byte c (a +:+ b) = contains_byte c a || contains_byte c b.
Proof.
  induction a as [|d a IH]; [reflexivity|].
  rewrite append_cons. simpl. now rewrite IH, orb_assoc.
Qed.

Lemma CTL_app (a b : string) :
  stringContainsCTLByte (a +:+ b)
  = stringContainsCTLByte a || stringContainsCTLByte b.
Proof.
  induction a as [|d a IH]; [reflexivity|].
  rewrite append_cons. simpl. now rewrite IH, !orb_assoc.
Qed.

Lemma substring_skip2 (a b : ascii) (t : string) :
  String.substring 2 (String.length (String a (String b t)) - 2)
    (String a (String b t)) = t.
Proof. simpl. rewrite Nat.sub_0_r. apply substring_all. Qed.

Lemma URL_String_built (p' q : string) :
  q <> EmptyString ->
  URL_String (mkURL "https" EmptyString "api.vk.com" (String "/" p')
                    EmptyString false false q)
  = "https://api.vk.com/" +:+ escape p' encodePath +:+ "?" +:+ q.
Proof. destruct q; [contradiction|]. reflexivity. Qed.

Lemma url_parse_built (p' q : string) :
  q <> EmptyString ->
  all_bytes plain_byte q = true ->
  url_parse ("https://api.vk.com/" +:+ escape p' encodePath +:+ "?" +:+ q) false
  = Ok (mkURL "https" EmptyString "api.vk.com" (String "/" p')
              EmptyString false false q).
Proof.
  intros Hq Hplain.
  pose proof (escape_plain p' encodePath ltac:(discriminate)) as Hep.
  set (ep := escape p' encodePath) in *.
  unfold url_parse.
  rewrite !CTL_app, (plain_no_ctl _ Hep), (plain_no_ctl _ Hplain).
  cbn [orb].
  change (stringContainsCTLByte "https://api.vk.com/") with false.
  change (stringContainsCTLByte "?") with false.
  cbn [orb andb negb].
  rewrite andb_false_r.
  change (string_eqb ("https://api.vk.com/" +:+ ep +:+ "?" +:+ q) "*") with false.
  change (getScheme ("https://api.vk.com/" +:+ ep +:+ "?" +:+ q))
    with (Ok (A:=string * string) ("https", "//api.vk.com/" +:+ ep +:+ "?" +:+ q)).
  cbn [bind_result].
  change (ToLower "https") with "https".
  assert (Hq' : contains_byte "?" q = false) by now apply plain_no_question.
  assert (Hep' : contains_byte "?" ep = false) by now apply plain_no_question.
  assert (F1 : ends_with "?" ("//api.vk.com/" +:+ ep +:+ "?" +:+ q) = false).
  { rewrite <- !append_assoc. now apply ends_with_app_absent. }
  assert (F2 : Cut "?" ("//api.vk.com/" +:+ ep +:+ "?" +:+ q)
               = ("//api.vk.com/" +:+ ep, q, true)).
  { rewrite <- (append_assoc "//api.vk.com/" ep).
    apply Cut_first. rewrite contains_byte_app, Hep'. reflexivity. }
  rewrite F1, F2. cbn [andb].
  change (starts_with "/" ("//api.vk.com/" +:+ ep)) with true.
  change (HasPrefix ("//api.vk.com/" +:+ ep) "//") with true.
  cbn [negb andb orb nonempty].
  change (nonempty "https") with true. cbn [negb andb orb].
  change ("//api.vk.com/" +:+ ep)
    with (String "/" (String "/" ("api.vk.com/" +:+ ep))).
  rewrite substring_skip2.
  change (Cut "/" ("api.vk.com/" +:+ ep)) with ("api.vk.com", ep, true).
  change (parseAuthority "api.vk.com") with (Ok (A:=string) "api.vk.com").
  cbn [bind_result].
  unfold setPath.
  change (String "/" ep) with (escape (String "/" p') encodePath).
  rewrite unescape_escape_path. cbn [bind_result].
  rewrite string_eqb_refl. reflexivity.
Qed.

Lemma url_Parse_built (p' q : string) :
  q <> EmptyString ->
  all_bytes plain_byte q = true ->
  url_Parse ("https://api.vk.com/" +:+ escape p' encodePath +:+ "?" +:+ q)
  = Ok (mkURL "https" EmptyString "api.vk.com" (String "/" p')
              EmptyString false false q).
Proof.
  intros Hq Hplain. unfold url_Parse.
  rewrite Cut_absent.
  - now rewrite url_parse_built.
  - rewrite !contains_byte_app.
    rewrite (plain_no_hash _ (escape_plain p' encodePath ltac:(discriminate))).
    rewrite (plain_no_hash _ Hplain). reflexivity.
Qed.

(** [Request.HTTP] returns, and the request it returns carries the URL
    that it built: parsing the rendered URL gives its parts back. *)
Lemma HTTP_returns (r : Request) :
  HTTP r = Returns (mkHTTPRequest defaultMethod (request_url r) defaultHost).
Proof.
  unfold HTTP, request_url.
  pose proof (request_path_rooted (Method r)) as Hp.
  destruct (path_Join [defaultPath; Method r]) as [|c p']; [discriminate|].
  simpl in Hp. apply Ascii.eqb_eq in Hp. subst c.
  change defaultScheme with "https". change defaultHost with "api.vk.com".
  rewrite URL_String_built by apply request_query_nonempty.
  unfold NewRequest.
  rewrite url_Parse_built
    by (apply request_query_nonempty || apply Values_Encode_plain).
  reflexivity.
Qed.


(** * The claims about [Request.HTTP] *)





(** A method name with bytes that a URL cannot hold as they are: the
    rendered URL escapes them, and parsing it gives the path back. *)
Lemma unusual_method_request :
  HTTP (mkRequest "a/../b c?%41#" EmptyString ∅)
  = Returns (mkHTTPRequest "GET"
      (mkURL "https" EmptyString "api.vk.com" "/method/b c?%41#" EmptyString
             false false "https=1&v=5.35")
      "api.vk.com")
  /\ URL_String (request_url (mkRequest "a/../b c?%41#" EmptyString ∅))
     = "https://api.vk.com/method/b%20c%3F%2541%23?https=1&v=5.35".
Proof. split; [rewrite HTTP_returns|]; vm_compute; reflexivity. Qed.





(** C8: [Request.HTTP] is total on caller input. It has a single result
    and no error result; its one failure path is [must] panicking on an
    error of [http.NewRequest], and no Request reaches it: for every
    Request the conversion returns a descriptor. *)
Theorem C8_HTTP_total (r : Request) :
  HTTP r = must (NewRequest defaultMethod (URL_String (request_url r)))
  /\ (exists req, HTTP r = Returns req)
  /\ (forall e, HTTP r <> Panics e)
  /\ (forall e, NewRequest defaultMethod (URL_String (request_url r)) <> Err e).
Proof.
  split; [reflexivity|].
  pose proof (HTTP_returns r) as H.
  split; [eauto|].
  split; [intros e He; rewrite H in He; discriminate|].
  intros e He. unfold HTTP in H. rewrite He in H. discriminate.
Qed.

(** * The response processor and the client *)

(** ** What the calls do to the trace *)

Lemma count_app (P : event -> bool) (a b : list event) :
  count P (a ++ b)%list = count P a + count P b.
Proof. unfold count. now rewrite List.filter_app, length_app. Qed.

(** The exits of [To]: the decode fails, or the error check decides;
    a stream with a [Close] is closed last. *)
Lemma To_eval {R} `{Response R} (d : vkResponseProcessor) (response : R)
    (trace : list event) :
  To d response trace
  = let '(r, err) := decode_stream (input d) response in
    let closing := if closer (input d) then [EvClose] else [] in
    match err with
    | Some e => ((r, Some e), trace ++ [EvDecode] ++ closing)
    | None => ((r, ServerError r), trace ++ [EvDecode; EvServerError] ++ closing)
    end%list.
Proof.
  unfold To, defer, Decoder_Decode, call_ServerError, rc_Close, emit.
  unfold mbind, M_bind, mret, M_ret. simpl.
  destruct (decode_stream (input d) response) as [r [e|]];
    destruct (closer (input d)); simpl;
    rewrite <- ?app_assoc, ?app_nil_r; reflexivity.
Qed.

(** The exits of [Raw]: those of [To] on the internal target, and the
    second decode of the captured bytes. *)
Lemma Raw_eval `{ErrorMethods} {V} `{Unmarshal V} (d : vkResponseProcessor)
    (v : V) (trace : list event) :
  vkResponseProcessor_Raw d v trace
  = let '(raw, err) := decode_stream (input d) zero_RawResponse in
    let closing := if closer (input d) then [EvClose] else [] in
    match err with
    | Some e => ((v, Some e), trace ++ [EvDecode] ++ closing)
    | None =>
        match Error_ServerError (Data_Error raw) with
        | Some e => ((v, Some e), trace ++ [EvDecode; EvServerError] ++ closing)
        | None =>
            (unmarshal_bytes (Raw_Bytes (Data_Response raw)) v,
             trace ++ [EvDecode; EvServerError] ++ closing
                   ++ [EvUnmarshal (Raw_Bytes (Data_Response raw))])
        end
    end%list.
Proof.
  unfold vkResponseProcessor_Raw.
  unfold mbind at 1. unfold M_bind. rewrite To_eval.
  destruct (decode_stream (input d) zero_RawResponse) as [raw [e|]];
    cbn zeta; [reflexivity|].
  change (ServerError raw) with (Error_ServerError (Data_Error raw)).
  destruct (Error_ServerError (Data_Error raw)); [reflexivity|].
  unfold json_Unmarshal, emit, mbind, M_bind, mret, M_ret.
  rewrite <- !app_assoc. reflexivity.
Qed.

(** ** Streams that make the decode fail *)

(** A stream that fails before it delivers a byte: [Decode] returns the
    failure of the stream. *)
Lemma decode_stream_read_failure {R} `{Unmarshal R} (input : Reader) (v : R) :
  content input = EmptyString ->
  decode_stream input v = (v, Some (failure input)).
Proof.
  intros Hc. unfold decode_stream. rewrite Hc.
  change (scan EmptyString) with (Incomplete NeedsMore).
  destruct (failure input); reflexivity.
Qed.

(** A stream whose bytes are not the start of a JSON text: [Decode]
    returns a syntax error and leaves the target as it was. *)
Lemma decode_stream_malformed {R} `{Unmarshal R} (input : Reader) (v : R) :
  scan (content input) = Invalid ->
  decode_stream input v = (v, Some (SyntaxError "invalid character")).
Proof. intros Hs. unfold decode_stream. now rewrite Hs. Qed.

(** [json.Unmarshal] of no bytes fails, whatever the target. *)
Lemma unmarshal_bytes_empty {V} `{Unmarshal V} (v : V) :
  unmarshal_bytes EmptyString v
  = (v, Some (SyntaxError "unexpected end of JSON input")).
Proof. reflexivity. Qed.

(** ** Envelopes without an error object and without a response *)

Lemma Data_members_skipped `{ErrorMethods} {T} `{Unmarshal T}
    (members : list (string * (string * json))) (d : Data T) (saved : option error) :
  (forall key rv, (key, rv) ∈ members ->
     field_matches "error" key = false /\ field_matches "response" key = false) ->
  fold_left Data_member members (d, saved) = (d, saved).
Proof.
  induction members as [|[key [raw v]] members IH]; intros Hno; [reflexivity|].
  simpl. destruct (Hno key (raw, v)) as [He Hr]; [left|].
  rewrite He, Hr. apply IH. intros k rv Hin. apply (Hno k rv). now right.
Qed.

(** * The claims about the processor, the client and Raw *)

(** C3: a stream that has a [Close] is closed exactly once by the
    full-envelope path [To] and by the raw path [Raw], whatever the
    outcome: the decode succeeds or fails, the error check passes or
    fails, the second decode of the raw path succeeds or fails. *)
Theorem C3_closed_exactly_once `{ErrorMethods} {R} `{Response R} {V} `{Unmarshal V}
    (d : vkResponseProcessor) (response : R) (v : V) (trace : list event) :
  closer (input d) = true ->
  count is_close (snd (To d response trace)) = S (count is_close trace)
  /\ count is_close (snd (vkResponseProcessor_Raw d v trace))
     = S (count is_close trace).
Proof.
  intros Hc. rewrite To_eval, Raw_eval, Hc. split.
  - destruct (decode_stream (input d) response) as [r [e|]]; cbn zeta; simpl;
      rewrite !count_app; unfold count; simpl; lia.
  - destruct (decode_stream (input d) zero_RawResponse) as [raw [e|]]; cbn zeta;
      [|destruct (Error_ServerError (Data_Error raw))]; simpl;
      rewrite !count_app; unfold count; simpl; lia.
Qed.

(** C3 at the failing reader of the package's tests. *)
Lemma C3_closed_exactly_once_witness :
  closer (input (Process errorReader)) = true
  /\ count is_close
       (snd (To (H := Data_Response_impl (H := spec_ErrorMethods))
               (Process errorReader) zero_RawResponse [])) = 1
  /\ count is_close
       (snd (vkResponseProcessor_Raw (H := spec_ErrorMethods) (H0 := ids_Unmarshal)
               (Process errorReader) [] [])) = 1.
Proof.
  split; [reflexivity|].
  apply (C3_closed_exactly_once (H := spec_ErrorMethods)
           (H0 := Data_Response_impl (H := spec_ErrorMethods))
           (H1 := ids_Unmarshal)
           (Process errorReader) zero_RawResponse [] []).
  reflexivity.
Defined.

(** C4: when the decode of the envelope fails (malformed JSON, a read
    failure of the stream, also one before any byte), [To] returns that
    failure unchanged and never calls the error check [ServerError]. *)
Theorem C4_decode_failure_returned {R} `{Response R}
    (d : vkResponseProcessor) (response r : R) (e : error) (trace : list event) :
  decode_stream (input d) response = (r, Some e) ->
  fst (To d response trace) = (r, Some e)
  /\ count is_hook (snd (To d response trace)) = count is_hook trace.
Proof.
  intros Hd. rewrite To_eval, Hd. cbn zeta. split; [reflexivity|].
  simpl. rewrite !count_app. destruct (closer (input d)); unfold count; simpl; lia.
Qed.

(** C4 at the failing reader of the package's tests. *)
Lemma C4_decode_failure_returned_witness :
  fst (To (H := Data_Response_impl (H := spec_ErrorMethods))
         (Process errorReader) zero_RawResponse [])
  = (zero_RawResponse, Some io_ErrUnexpectedEOF)
  /\ count is_hook
       (snd (To (H := Data_Response_impl (H := spec_ErrorMethods))
               (Process errorReader) zero_RawResponse [])) = count is_hook [].
Proof.
  apply (C4_decode_failure_returned (H := Data_Response_impl (H := spec_ErrorMethods))
           (Process errorReader) zero_RawResponse zero_RawResponse
           io_ErrUnexpectedEOF []).
  reflexivity.
Defined.


(** The error envelope of the tests, in raw mode: the classified error
    with code 10 is returned, and the caller's target is not decoded. *)
Lemma Raw_error_envelope :
  run (vkResponseProcessor_Raw (H := spec_ErrorMethods) (H0 := ids_Unmarshal)
         (Process (NewBufferString sError)) [])
  = (([], Some (ServerErr
         (mkError 10 "Internal server error: could not get application"
            [("oauth", "1"); ("method", "users.get"); ("user_id", "1"); ("v", "5.35")]
            zero_Request))),
     [EvDecode; EvServerError]).
Proof. vm_compute. reflexivity. Qed.

(** C10: for a well-formed envelope that has neither an [error] object
    nor a [response] member, raw-mode processing returns the error of
    the second decode: the decode of the envelope and the error check
    succeed, the captured fragment is empty, and [json.Unmarshal] of no
    bytes fails. The full-envelope path returns no error on the same
    input (for a target whose error check passes before the call, such
    as a fresh one). *)
Theorem C10_raw_fails_on_empty_envelope `{ErrorMethods} {V} `{Unmarshal V} {T} `{Unmarshal T}
    (rd : Reader) (raw : string) (members : list (string * (string * json)))
    (rest : string) (v : V) (target : Data T) (trace : list event) :
  scan (content rd) = Complete raw (JObject members) rest ->
  (forall key rv, (key, rv) ∈ members ->
     field_matches "error" key = false /\ field_matches "response" key = false) ->
  Error_ServerError zero_Error = None ->
  Error_ServerError (Data_Error target) = None ->
  fst (vkResponseProcessor_Raw (Process rd) v trace)
  = (v, Some (SyntaxError "unexpected end of JSON input"))
  /\ (exists before,
        snd (vkResponseProcessor_Raw (Process rd) v trace)
        = (before ++ [EvUnmarshal EmptyString])%list)
  /\ fst (To (Process rd) zero_RawResponse trace) = (zero_RawResponse, None)
  /\ fst (To (Process rd) target trace) = (target, None).
Proof.
  intros Hscan Hno Hzero Hfresh.
  assert (Hdec : forall (U : Type) (HU : Unmarshal U) (t : Data U),
            decode_stream rd t = (t, None)).
  { intros U HU t. unfold decode_stream. rewrite Hscan.
    unfold unmarshal, Data_Unmarshal. now apply Data_members_skipped. }
  rewrite Raw_eval, !To_eval. cbn [input Process].
  repeat match goal with
  | |- context [@decode_stream ?R ?I rd ?t] =>
      replace (@decode_stream R I rd t) with (t, @None error)
        by (symmetry; apply Hdec)
  end.
  cbn zeta.
  repeat match goal with
  | |- context [@ServerError ?R ?I ?t] =>
      change (@ServerError R I t) with (Error_ServerError (Data_Error t))
  end.
  change (Data_Error zero_RawResponse) with zero_Error.
  change (Raw_Bytes (Data_Response zero_RawResponse)) with EmptyString.
  rewrite Hzero, Hfresh. cbn [fst snd].
  split; [apply unmarshal_bytes_empty|].
  split; [|split; reflexivity].
  eexists. rewrite !app_assoc. reflexivity.
Qed.

(** C10 at an envelope whose only member is [ok]. *)
Lemma C10_raw_fails_on_empty_envelope_witness :
  fst (vkResponseProcessor_Raw (H := spec_ErrorMethods) (H0 := ids_Unmarshal)
         (Process (NopCloser (NewBufferString sEmptyEnvelope))) [] [])
  = ([], Some (SyntaxError "unexpected end of JSON input"))
  /\ (exists before,
        snd (vkResponseProcessor_Raw (H := spec_ErrorMethods) (H0 := ids_Unmarshal)
               (Process (NopCloser (NewBufferString sEmptyEnvelope))) [] [])
        = (before ++ [EvUnmarshal EmptyString])%list)
  /\ fst (To (H := Data_Response_impl (H := spec_ErrorMethods))
            (Process (NopCloser (NewBufferString sEmptyEnvelope)))
            zero_RawResponse [])
     = (zero_RawResponse, None)
  /\ fst (To (H := Data_Response_impl (H := spec_ErrorMethods) (H0 := ids_Unmarshal))
            (Process (NopCloser (NewBufferString sEmptyEnvelope)))
            (mkData zero_Error []) [])
     = (mkData zero_Error [], None).
Proof.
  apply (C10_raw_fails_on_empty_envelope (H := spec_ErrorMethods)
           (H0 := ids_Unmarshal) (H1 := ids_Unmarshal)
           (NopCloser (NewBufferString sEmptyEnvelope))
           sEmptyEnvelope [("ok", ("true", JBool true))] EmptyString
           [] (mkData zero_Error []) []).
  - vm_compute. reflexivity.
  - intros key rv Hin. apply list_elem_of_singleton in Hin.
    injection Hin as -> _. split; reflexivity.
  - reflexivity.
  - reflexivity.
Defined.

(** ** The exits of Client.Do *)

Lemma Do_eval {R} `{Response R} (c : Client) (request : Request) (response : R)
    (trace : list event) :
  let req := request_descriptor request in
  let attached := setRequest request response in
  let called := (trace ++ [EvSetRequest request; EvTransport req])%list in
  Do c request response trace
  = match httpClient c req with
    | (_, Some e) => (Returns (attached, Some e), called)
    | (None, None) => (Panics nil_dereference, called)
    | (Some res, None) =>
        if negb (StatusCode res =? StatusOK)%Z
        then (Returns (attached, Some ErrBadResponseCode), called)
        else let '(r, tr) := To (Process (Body res)) attached called in
             (Returns r, tr)
    end.
Proof.
  cbn zeta. unfold Do, call_setRequest, httpClient_Do, emit.
  unfold mbind, M_bind, mret, M_ret. rewrite HTTP_returns.
  fold (request_descriptor request). rewrite <- app_assoc. cbn [app].
  destruct (httpClient c (request_descriptor request)) as [[res|] [e|]];
    try reflexivity.
  destruct (negb (StatusCode res =? StatusOK)%Z); [reflexivity|].
  destruct (To _ _ _) as [r tr]. reflexivity.
Qed.

(** C6: when the transport returns a response whose status code is not
    200, [Client.Do] returns exactly [ErrBadResponseCode], whatever the
    body holds, and the body is neither decoded nor read; when the
    transport reports a failure, [Client.Do] returns that failure
    unchanged. *)
Theorem C6_bad_status_and_transport_failure {R} `{Response R}
    (c : Client) (request : Request) (response : R) (trace : list event) :
  let req := request_descriptor request in
  let out := Do c request response trace in
  (forall res,
     httpClient c req = (Some res, None) ->
     StatusCode res <> StatusOK ->
     (exists target, fst out = Returns (target, Some ErrBadResponseCode))
     /\ count is_decode (snd out) = count is_decode trace
     /\ count is_unmarshal (snd out) = count is_unmarshal trace)
  /\ (forall res e,
        httpClient c req = (res, Some e) ->
        (exists target, fst out = Returns (target, Some e))
        /\ count is_decode (snd out) = count is_decode trace).
Proof.
  cbn zeta. rewrite Do_eval. cbn zeta. split.
  - intros res Hres Hstatus. rewrite Hres.
    apply Z.eqb_neq in Hstatus. rewrite Hstatus. cbn [negb fst snd].
    split; [eauto|]. rewrite !count_app. unfold count. simpl. lia.
  - intros res e Hres. rewrite Hres.
    destruct res; cbn [fst snd]; (split; [eauto|]);
      rewrite !count_app; unfold count; simpl; lia.
Qed.

(** C6 at the two failing transports of [TestDo]. *)
Lemma C6_bad_status_and_transport_failure_witness :
  (exists target,
     fst (Do (H := Data_Response_impl (H := spec_ErrorMethods))
            bad_status_client (mkRequest "users.get" EmptyString ∅)
            zero_RawResponse [])
     = Returns (target, Some ErrBadResponseCode))
  /\ (exists target,
        fst (Do (H := Data_Response_impl (H := spec_ErrorMethods))
               failing_client (mkRequest "users.get" EmptyString ∅)
               zero_RawResponse [])
        = Returns (target, Some (errorString "transport failure"))).
Proof.
  split.
  - apply (proj1 (C6_bad_status_and_transport_failure
                    (H := Data_Response_impl (H := spec_ErrorMethods))
                    bad_status_client (mkRequest "users.get" EmptyString ∅)
                    zero_RawResponse [])
             (mkHTTPResponse 400 (NopCloser (NewBufferString EmptyString)))
             eq_refl).
    discriminate.
  - apply (proj2 (C6_bad_status_and_transport_failure
                    (H := Data_Response_impl (H := spec_ErrorMethods))
                    failing_client (mkRequest "users.get" EmptyString ∅)
                    zero_RawResponse [])
             (Some (mkHTTPResponse 400 (NopCloser (NewBufferString EmptyString))))
             (errorString "transport failure") eq_refl).
Defined.

(** C9: [Client.Do] attaches the Request to the target before it calls
    the transport, in every execution; when the call fails with a
    transport error or with the bad-status error, the target is the one
    that [setRequest] produced: the attachment is all that [Do] did to
    it, and nothing was decoded into it. *)
Theorem C9_request_attached_first {R} `{Response R}
    (c : Client) (request : Request) (response : R) (trace : list event) :
  let req := request_descriptor request in
  let out := Do c request response trace in
  (exists later,
     snd out = (trace ++ [EvSetRequest request; EvTransport req] ++ later)%list)
  /\ (forall res e,
        httpClient c req = (res, Some e) ->
        out = (Returns (setRequest request response, Some e),
               (trace ++ [EvSetRequest request; EvTransport req])%list))
  /\ (forall res,
        httpClient c req = (Some res, None) ->
        StatusCode res <> StatusOK ->
        out = (Returns (setRequest request response, Some ErrBadResponseCode),
               (trace ++ [EvSetRequest request; EvTransport req])%list))
  /\ (forall res,
        httpClient c req = (Some res, None) ->
        StatusCode res = StatusOK ->
        out = (let '(r, tr) :=
                 To (Process (Body res)) (setRequest request response)
                    (trace ++ [EvSetRequest request; EvTransport req])%list in
               (Returns r, tr))).
Proof.
  cbn zeta. rewrite Do_eval. cbn zeta. split; [|split; [|split]].
  - destruct (httpClient c (request_descriptor request)) as [[res|] [e|]];
      try (exists []; cbn [snd]; now rewrite app_nil_r).
    destruct (negb (StatusCode res =? StatusOK)%Z);
      [exists []; cbn [snd]; now rewrite app_nil_r|].
    rewrite To_eval.
    destruct (decode_stream _ _) as [r [e|]]; cbn zeta; cbn [snd];
      rewrite <- app_assoc; eauto.
  - intros res e ->. destruct res; reflexivity.
  - intros res -> Hstatus. apply Z.eqb_neq in Hstatus. now rewrite Hstatus.
  - intros res -> Hstatus. apply Z.eqb_eq in Hstatus. now rewrite Hstatus.
Qed.

(** C9 at the bad-status transport of [TestDo]. *)
Lemma C9_request_attached_first_witness :
  Do (H := Data_Response_impl (H := spec_ErrorMethods))
     bad_status_client (mkRequest "users.get" EmptyString ∅) zero_RawResponse []
  = (Returns (mkData (mkError 0 EmptyString [] (mkRequest "users.get" EmptyString ∅))
                     EmptyString,
              Some ErrBadResponseCode),
     [EvSetRequest (mkRequest "users.get" EmptyString ∅);
      EvTransport (request_descriptor (mkRequest "users.get" EmptyString ∅))]).
Proof.
  apply (proj1 (proj2 (proj2 (C9_request_attached_first
                    (H := Data_Response_impl (H := spec_ErrorMethods))
                    bad_status_client (mkRequest "users.get" EmptyString ∅)
                    zero_RawResponse [])))
           (mkHTTPResponse 400 (NopCloser (NewBufferString EmptyString)))
           eq_refl).
  discriminate.
Defined.

(** C7: a [Raw] fragment passes through its two methods unchanged, for
    every byte sequence: [UnmarshalJSON] stores exactly the bytes it is
    given, without looking at them, and returns no error; [MarshalJSON]
    returns exactly the stored bytes and no error; so decoding and then
    encoding gives the source bytes back. The decoder hands the
    fragment the source bytes of the value, whatever the value is. *)
Theorem C7_raw_passthrough (data : string) (m : Raw) (j : json) :
  UnmarshalJSON m data = (data, None)
  /\ MarshalJSON m = (m, None)
  /\ MarshalJSON (fst (UnmarshalJSON m data)) = (data, None)
  /\ Raw_Bytes (fst (UnmarshalJSON m data)) = data
  /\ unmarshal data j m = (data, None).
Proof. repeat split. Qed.

(** * The package's tests, and the retained Request *)

(** [TestMust]: [must] panics with the error it is given. *)
Lemma test_must (e : error) : must (A := HTTPRequest) (Err e) = Panics e.
Proof. reflexivity. Qed.

(** [TestResponseProcessor] and [TestDoRawResponse]: the envelope with a
    response decodes without error; the fragment holds the source bytes
    of the response; the stream is decoded, checked, then closed. *)
Lemma test_To_response :
  run (To (H := Data_Response_impl (H := spec_ErrorMethods))
         (Process (NopCloser (NewBufferString sData))) zero_RawResponse)
  = ((mkData zero_Error
        (json_text "[ { 'id': 1, 'first_name': 'Павел', 'last_name': 'Дуров' } ]"),
      None),
     [EvDecode; EvServerError; EvClose]).
Proof. vm_compute. reflexivity. Qed.

(** [TestResponseProcessor], "Read error". *)
Lemma test_To_read_error :
  run (To (H := Data_Response_impl (H := spec_ErrorMethods))
         (Process errorReader) zero_RawResponse)
  = ((zero_RawResponse, Some io_ErrUnexpectedEOF), [EvDecode; EvClose]).
Proof. vm_compute. reflexivity. Qed.

(** A malformed text: the syntax error is returned, the error check is
    not called, the stream is closed. *)
Lemma test_To_malformed :
  run (To (H := Data_Response_impl (H := spec_ErrorMethods))
         (Process (NopCloser (NewBufferString "{,}"))) zero_RawResponse)
  = ((zero_RawResponse, Some (SyntaxError "invalid character")), [EvDecode; EvClose]).
Proof. vm_compute. reflexivity. Qed.

(** A text that ends inside the envelope. *)
Lemma test_To_truncated :
  run (To (H := Data_Response_impl (H := spec_ErrorMethods))
         (Process (NewBufferString "{")) zero_RawResponse)
  = ((zero_RawResponse, Some io_ErrUnexpectedEOF), [EvDecode]).
Proof. vm_compute. reflexivity. Qed.

(** [TestRawResponseProcessor]: the response array decodes into the
    plain sequence of the test. *)
Lemma test_Raw_response :
  run (vkResponseProcessor_Raw (H := spec_ErrorMethods) (H0 := ids_Unmarshal)
         (Process (NopCloser (NewBufferString sData))) [])
  = (([1%Z], None),
     [EvDecode; EvServerError; EvClose;
      EvUnmarshal
        (json_text "[ { 'id': 1, 'first_name': 'Павел', 'last_name': 'Дуров' } ]")]).
Proof. vm_compute. reflexivity. Qed.

(** [TestRawResponseProcessor], "Read error". *)
Lemma test_Raw_read_error :
  run (vkResponseProcessor_Raw (H := spec_ErrorMethods) (H0 := ids_Unmarshal)
         (Process errorReader) [])
  = (([], Some io_ErrUnexpectedEOF), [EvDecode; EvClose]).
Proof. vm_compute. reflexivity. Qed.

(** With the methods of [Error] as the spec gives them, decoding never
    touches the retained Request. *)
Lemma spec_Error_members_request (members : list (string * (string * json)))
    (acc : Error * option error) :
  Request_ (fst (fold_left spec_Error_member members acc)) = Request_ (fst acc).
Proof.
  revert acc. induction members as [|[key [raw v]] members IH]; intros [e saved];
    [reflexivity|].
  simpl. rewrite IH. clear IH.
  destruct (field_matches "error_code" key).
  { destruct (int_field _ _ _). reflexivity. }
  destruct (field_matches "error_msg" key).
  { destruct (string_field _ _ _). reflexivity. }
  destruct (field_matches "request_params" key); [|reflexivity].
  destruct (params_field _ _). reflexivity.
Qed.

Lemma spec_Error_unmarshal_request (raw : string) (v : json) (e : Error) :
  Request_ (fst (unmarshal (Unmarshal := Error_Unmarshal (ErrorMethods := spec_ErrorMethods))
                   raw v e)) = Request_ e.
Proof.
  destruct v; try reflexivity.
  apply (spec_Error_members_request members (e, None)).
Qed.

Lemma spec_Data_members_request {T} `{Unmarshal T}
    (members : list (string * (string * json))) (acc : Data T * option error) :
  Request_ (Data_Error (fst (fold_left (Data_member (H := spec_ErrorMethods))
                                members acc)))
  = Request_ (Data_Error (fst acc)).
Proof.
  revert acc. induction members as [|[key [raw v]] members IH]; intros [d saved];
    [reflexivity|].
  cbn [fold_left]. rewrite IH. clear IH. unfold Data_member.
  destruct (field_matches "error" key).
  { pose proof (spec_Error_unmarshal_request raw v (Data_Error d)) as E.
    destruct (unmarshal raw v (Data_Error d)). exact E. }
  destruct (field_matches "response" key); [|reflexivity].
  destruct (unmarshal raw v (Data_Response d)). reflexivity.
Qed.

Lemma spec_decode_stream_request {T} `{Unmarshal T} (rd : Reader) (d : Data T) :
  Request_ (Data_Error
              (fst (decode_stream (H := Data_Unmarshal (H := spec_ErrorMethods)) rd d)))
  = Request_ (Data_Error d).
Proof.
  assert (Hu : forall raw v,
            Request_ (Data_Error
              (fst (unmarshal (Unmarshal := Data_Unmarshal (H := spec_ErrorMethods))
                      raw v d))) = Request_ (Data_Error d)).
  { intros raw v. destruct v; try reflexivity.
    apply (spec_Data_members_request members (d, None)). }
  unfold decode_stream.
  destruct (scan (content rd)) as [raw v rest| |verdict]; [apply Hu | reflexivity |].
  destruct (failure rd); try reflexivity.
  destruct verdict; [apply Hu | reflexivity | reflexivity].
Qed.

(** With the methods of [Error] as the spec gives them, every execution
    of [Client.Do] that returns leaves the originating Request on the
    target, whether it fails before the decode or decodes the body. *)
Lemma Do_retains_request {T} `{Unmarshal T} (c : Client) (request : Request)
    (response target : Data T) (err : option error) (trace : list event) :
  fst (Do (H := Data_Response_impl (H := spec_ErrorMethods))
          c request response trace) = Returns (target, err) ->
  Request_ (Data_Error target) = request.
Proof.
  rewrite Do_eval. cbn zeta.
  destruct (httpClient c (request_descriptor request)) as [[res|] [e|]]; cbn [fst].
  - intros [= <- _]. reflexivity.
  - destruct (negb (StatusCode res =? StatusOK)%Z).
    + intros [= <- _]. reflexivity.
    + rewrite To_eval.
      pose proof (spec_decode_stream_request (Body res)
                    (setRequest (Response := Data_Response_impl (H := spec_ErrorMethods))
                       request response)) as E.
      cbn [input Process].
      destruct (decode_stream _ _) as [r [e|]]; cbn zeta; cbn [fst];
        intros [= <- _]; exact E.
  - intros [= <- _]. reflexivity.
  - discriminate.
Qed.

(** * Further properties of [Request.HTTP] *)




Lemma count_byte_app c (a b : string) :
  count_byte c (a +:+ b) = count_byte c a + count_byte c b.
Proof.
  induction a as [|d a IH]; [reflexivity|].
  rewrite append_cons. simpl. rewrite IH. lia.
Qed.

Lemma count_byte_absent c (s : string) :
  contains_byte c s = false -> count_byte c s = 0.
Proof.
  induction s as [|d s IH]; [reflexivity|]. simpl.
  intros [Hd Hs]%orb_false_elim. rewrite Hd, (IH Hs). reflexivity.
Qed.

Lemma escape_byte_url (c : ascii) (s : string) (mode : encoding) :
  mode <> encodeHost ->
  all_bytes url_byte (escape (String c s) mode)
  = all_bytes url_byte (escape s mode).
Proof.
  intros Hm. destruct mode; [| contradiction |]; each_byte c; reflexivity.
Qed.

Lemma escape_url_bytes (s : string) (mode : encoding) :
  mode <> encodeHost -> all_bytes url_byte (escape s mode) = true.
Proof.
  intros Hm. induction s as [|c s IH]; [reflexivity|].
  now rewrite escape_byte_url.
Qed.

Lemma Join_all_bytes (P : ascii -> bool) (elems : list string) :
  P "&"%char = true ->
  Forall (fun e => all_bytes P e = true) elems ->
  all_bytes P (Join elems "&") = true.
Proof.
  intros Hamp. induction 1 as [|e rest He Hrest IH]; [reflexivity|].
  destruct rest as [|e' rest]; [exact He|].
  change (Join (e :: e' :: rest) "&") with (e +:+ "&" +:+ Join (e' :: rest) "&").
  rewrite !all_bytes_app, He, IH. simpl. now rewrite Hamp.
Qed.

Lemma Values_Encode_url_bytes (v : url_Values) :
  all_bytes url_byte (Values_Encode v) = true.
Proof.
  unfold Values_Encode. apply Join_all_bytes; [reflexivity|].
  apply Forall_forall. intros e He%list_elem_of_In.
  apply in_map_iff in He as [kv [<- _]].
  unfold encode_pair, QueryEscape.
  rewrite !all_bytes_app, !escape_url_bytes by discriminate. reflexivity.
Qed.

(** The text of the URL that [Request.HTTP] renders. *)
Lemma request_URL_String (r : Request) :
  exists p',
    path_Join [defaultPath; Method r] = String "/" p'
    /\ URL_String (request_url r)
       = "https://api.vk.com/" +:+ escape p' encodePath +:+ "?"
         +:+ Values_Encode (request_values r).
Proof.
  pose proof (request_path_rooted (Method r)) as Hp.
  unfold request_url.
  destruct (path_Join [defaultPath; Method r]) as [|c p']; [discriminate|].
  simpl in Hp. apply Ascii.eqb_eq in Hp. subst c.
  exists p'. split; [reflexivity|].
  change defaultScheme with "https". change defaultHost with "api.vk.com".
  apply URL_String_built, request_query_nonempty.
Qed.

(** X2: whatever bytes the method name, the token and the parameters of
    a Request hold, the URL that [Request.HTTP] renders is the fixed
    scheme and host, a rooted path, one [?] and the encoded parameters.
    It consists of ASCII letters, digits and the bytes
    [-_.~$&+,/:;=@%?] only: no space, no control byte such as a line
    break, no [#] and no byte above 127. Its only [?] is the one before
    the query, so the method name cannot add parameters. *)
Theorem X2_rendered_url_is_safe (r : Request) :
  exists path_text,
    URL_String (request_url r)
    = "https://api.vk.com" +:+ path_text +:+ "?" +:+ Values_Encode (request_values r)
    /\ starts_with "/" path_text = true
    /\ contains_byte "?" path_text = false
    /\ all_bytes url_byte (URL_String (request_url r)) = true
    /\ count_byte "?" (URL_String (request_url r)) = 1
    /\ contains_byte "#" (URL_String (request_url r)) = false
    /\ contains_byte " " (URL_String (request_url r)) = false
    /\ stringContainsCTLByte (URL_String (request_url r)) = false.
Proof.
  destruct (request_URL_String r) as (p' & _ & HS).
  set (q := Values_Encode (request_values r)) in *.
  pose proof (escape_plain p' encodePath ltac:(discriminate)) as Hep.
  pose proof (Values_Encode_plain (request_values r)) as Hq. fold q in Hq.
  pose proof (escape_url_bytes p' encodePath ltac:(discriminate)) as Uep.
  pose proof (Values_Encode_url_bytes (request_values r)) as Uq. fold q in Uq.
  assert (Hurl : all_bytes url_byte (URL_String (request_url r)) = true).
  { rewrite HS, !all_bytes_app, Uep, Uq. reflexivity. }
  assert (Hno : forall c, url_byte c = false ->
            contains_byte c (URL_String (request_url r)) = false).
  { intros c Hc. revert Hurl. generalize (URL_String (request_url r)).
    induction s as [|d s IH]; [reflexivity|]. simpl.
    intros [Hd Hs]%andb_prop. rewrite (IH Hs), orb_false_r.
    destruct (Ascii.eqb d c) eqn:E; [|reflexivity].
    apply Ascii.eqb_eq in E. subst d. congruence. }
  exists (String "/" (escape p' encodePath)).
  split; [exact HS|]. split; [reflexivity|].
  split; [simpl; now apply plain_no_question|].
  split; [exact Hurl|].
  split.
  { rewrite HS, !count_byte_app.
    rewrite (count_byte_absent _ _ (plain_no_question _ Hep)).
    rewrite (count_byte_absent _ _ (plain_no_question _ Hq)). reflexivity. }
  split; [apply Hno; reflexivity|].
  split; [apply Hno; reflexivity|].
  rewrite HS, !CTL_app, (plain_no_ctl _ Hep), (plain_no_ctl _ Hq). reflexivity.
Qed.

(** X3: [path.Join] cleans the joined path, so the path of a request
    need not lie under the API prefix: for a method name [../m], with
    [m] one plain path element, the path of the descriptor is [/m], the
    prefix [/method] being removed by the [..] element. *)
Theorem X3_method_can_leave_prefix (r : Request) (m : string) :
  plain_method m = true ->
  Method r = "../" +:+ m ->
  exists req,
    HTTP r = Returns req
    /\ Path (req_URL req) = "/" +:+ m
    /\ Host (req_URL req) = defaultHost.
Proof.
  intros Hm Hr.
  exists (mkHTTPRequest defaultMethod (request_url r) defaultHost).
  split; [apply HTTP_returns|]. split; [|reflexivity].
  cbn [req_URL Path request_url]. rewrite Hr, request_path_Clean.
  change (Clean ("/method//" +:+ "../" +:+ m))
    with (let out := clean_loop true false m "/" 1 in
          if nonempty out then out else ".").
  rewrite (clean_loop_element m "/" Hm). reflexivity.
Qed.

(** X3 at the method name [../oauth]. *)
Lemma X3_method_can_leave_prefix_witness :
  exists req,
    HTTP climbing_request = Returns req
    /\ Path (req_URL req) = "/oauth"
    /\ Host (req_URL req) = defaultHost.
Proof.
  apply (X3_method_can_leave_prefix climbing_request "oauth"); reflexivity.
Defined.

(** ** The query string can be read back *)














(** * Further properties of the response processor *)

(** X5: a stream without a [Close] method is never closed, neither by
    [To] nor by [Raw], whatever the outcome. *)
Theorem X5_stream_without_close_not_closed `{ErrorMethods} {R} `{Response R} {V} `{Unmarshal V}
    (d : vkResponseProcessor) (response : R) (v : V) (trace : list event) :
  closer (input d) = false ->
  count is_close (snd (To d response trace)) = count is_close trace
  /\ count is_close (snd (vkResponseProcessor_Raw d v trace)) = count is_close trace.
Proof.
  intros Hc. rewrite To_eval, Raw_eval, Hc. split.
  - destruct (decode_stream (input d) response) as [r [e|]]; cbn zeta; simpl;
      rewrite !count_app; unfold count; simpl; lia.
  - destruct (decode_stream (input d) zero_RawResponse) as [raw [e|]]; cbn zeta;
      [|destruct (Error_ServerError (Data_Error raw))]; simpl;
      rewrite !count_app; unfold count; simpl; lia.
Qed.

(** X5 at a buffer, which has no [Close]. *)
Lemma X5_stream_without_close_not_closed_witness :
  count is_close
    (snd (To (H := Data_Response_impl (H := spec_ErrorMethods))
            (Process (NewBufferString sData)) zero_RawResponse [])) = 0
  /\ count is_close
       (snd (vkResponseProcessor_Raw (H := spec_ErrorMethods) (H0 := ids_Unmarshal)
               (Process (NewBufferString sData)) [] [])) = 0.
Proof.
  apply (X5_stream_without_close_not_closed (H := spec_ErrorMethods)
           (H0 := Data_Response_impl (H := spec_ErrorMethods))
           (H1 := ids_Unmarshal)
           (Process (NewBufferString sData)) zero_RawResponse [] []).
  reflexivity.
Defined.

(** X6: [To] runs the decoder on the stream exactly once in every
    execution, and [Raw] as well (its second decode works on the
    captured bytes, not on the stream). When the decode succeeds, [To]
    calls the error check exactly once and returns its verdict together
    with the decoded target: the decoding is kept, not undone, also when
    the error check reports an error. *)
Theorem X6_decodes_once_and_keeps_target `{ErrorMethods} {R} `{Response R} {V} `{Unmarshal V}
    (d : vkResponseProcessor) (response : R) (v : V) (trace : list event) :
  count is_decode (snd (To d response trace)) = S (count is_decode trace)
  /\ count is_decode (snd (vkResponseProcessor_Raw d v trace))
     = S (count is_decode trace)
  /\ (forall r,
        decode_stream (input d) response = (r, None) ->
        fst (To d response trace) = (r, ServerError r)
        /\ count is_hook (snd (To d response trace)) = S (count is_hook trace)).
Proof.
  rewrite To_eval, Raw_eval. split; [|split].
  - destruct (decode_stream (input d) response) as [r [e|]]; cbn zeta; simpl;
      rewrite !count_app; destruct (closer (input d)); unfold count; simpl; lia.
  - destruct (decode_stream (input d) zero_RawResponse) as [raw [e|]]; cbn zeta;
      [|destruct (Error_ServerError (Data_Error raw))]; simpl;
      rewrite !count_app; destruct (closer (input d)); unfold count; simpl; lia.
  - intros r ->. cbn zeta. split; [reflexivity|].
    simpl. rewrite !count_app. destruct (closer (input d)); unfold count; simpl; lia.
Qed.

(** X6 at the error envelope of the tests: the error is returned and
    the target holds the decoded error object. *)
Lemma X6_decodes_once_and_keeps_target_witness :
  fst (To (H := Data_Response_impl (H := spec_ErrorMethods))
         (Process (NewBufferString sError)) zero_RawResponse [])
  = (mkData (mkError 10 "Internal server error: could not get application"
               [("oauth", "1"); ("method", "users.get"); ("user_id", "1");
                ("v", "5.35")] zero_Request) EmptyString,
     ServerError (Response := Data_Response_impl (H := spec_ErrorMethods))
       (mkData (mkError 10 "Internal server error: could not get application"
                  [("oauth", "1"); ("method", "users.get"); ("user_id", "1");
                   ("v", "5.35")] zero_Request) EmptyString))
  /\ count is_hook
       (snd (To (H := Data_Response_impl (H := spec_ErrorMethods))
               (Process (NewBufferString sError)) zero_RawResponse []))
     = S (count is_hook []).
Proof.
  apply (proj2 (proj2 (X6_decodes_once_and_keeps_target (H := spec_ErrorMethods)
                  (H0 := Data_Response_impl (H := spec_ErrorMethods))
                  (H1 := ids_Unmarshal)
                  (Process (NewBufferString sError)) zero_RawResponse [] []))).
  vm_compute. reflexivity.
Defined.

(** ** Envelopes without an error member *)

Lemma last_response_app (before after : list (string * (string * json)))
    (init : string) :
  last_response (before ++ after) init = last_response after (last_response before init).
Proof.
  revert init. induction before as [|[key [raw v]] before IH]; intros init;
    [reflexivity|].
  simpl. apply IH.
Qed.

Lemma last_response_none (members : list (string * (string * json))) (init : string) :
  (forall k x, (k, x) ∈ members -> field_matches "response" k = false) ->
  last_response members init = init.
Proof.
  revert init. induction members as [|[key [raw v]] members IH]; intros init Hno;
    [reflexivity|].
  simpl. rewrite (Hno key (raw, v)) by left.
  apply IH. intros k x Hin. apply (Hno k x). now right.
Qed.

(** Without a member for [error], the members of an envelope leave the
    [Error] of a [RawResponse] as it was and store the source bytes of
    the last [response] member; no error is saved. *)
Lemma RawResponse_members `{ErrorMethods} (members : list (string * (string * json)))
    (d : RawResponse) (saved : option error) :
  (forall k x, (k, x) ∈ members -> field_matches "error" k = false) ->
  fold_left Data_member members (d, saved)
  = (mkData (Data_Error d) (last_response members (Data_Response d)), saved).
Proof.
  revert d. induction members as [|[key [raw v]] members IH]; intros d Hno.
  - destruct d. reflexivity.
  - cbn [fold_left]. unfold Data_member at 2.
    rewrite (Hno key (raw, v)) by left.
    assert (Hrest : forall k x, (k, x) ∈ members -> field_matches "error" k = false)
      by (intros k x Hin; apply (Hno k x); now right).
    destruct (field_matches "response" key) eqn:Hr.
    + change (unmarshal raw v (Data_Response d)) with (raw, @None error).
      cbn iota beta.
      replace (saveError saved None) with saved by now destruct saved.
      rewrite IH by exact Hrest.
      cbn [Data_Error Data_Response last_response]. now rewrite Hr.
    + rewrite IH by exact Hrest. cbn [last_response]. now rewrite Hr.
Qed.

(** Without a member for [error], the members of an envelope leave the
    [Error] of any target as it was. *)
Lemma Data_members_keep_Error `{ErrorMethods} {T} `{Unmarshal T}
    (members : list (string * (string * json))) (acc : Data T * option error) :
  (forall k x, (k, x) ∈ members -> field_matches "error" k = false) ->
  Data_Error (fst (fold_left Data_member members acc)) = Data_Error (fst acc).
Proof.
  revert acc. induction members as [|[key [raw v]] members IH]; intros [d saved] Hno;
    [reflexivity|].
  cbn [fold_left]. rewrite IH by (intros k x Hin; apply (Hno k x); now right).
  unfold Data_member. rewrite (Hno key (raw, v)) by left.
  destruct (field_matches "response" key); [|reflexivity].
  destruct (unmarshal raw v (Data_Response d)). reflexivity.
Qed.

(** X7: for an envelope without an [error] member, [Raw] decodes into
    the caller's target exactly the source bytes of the envelope's last
    [response] member, whatever JSON value that member is, and does so
    after the error check and after the stream has been closed, as the
    last call; [To] on the internal target stores these bytes and
    returns no error. *)
Theorem X7_Raw_decodes_the_response_bytes `{ErrorMethods} {V} `{Unmarshal V}
    (rd : Reader) (raw : string) (members before after : list (string * (string * json)))
    (key rb : string) (j : json) (rest : string) (v : V) (trace : list event) :
  scan (content rd) = Complete raw (JObject members) rest ->
  members = (before ++ (key, (rb, j)) :: after)%list ->
  field_matches "response" key = true ->
  (forall k x, (k, x) ∈ members -> field_matches "error" k = false) ->
  (forall k x, (k, x) ∈ after -> field_matches "response" k = false) ->
  Error_ServerError zero_Error = None ->
  vkResponseProcessor_Raw (Process rd) v trace
  = (unmarshal_bytes rb v,
     (trace ++ [EvDecode; EvServerError]
            ++ (if closer rd then [EvClose] else []) ++ [EvUnmarshal rb])%list)
  /\ fst (To (Process rd) zero_RawResponse trace) = (mkData zero_Error rb, None).
Proof.
  intros Hscan Hm Hkey Hnoerr Hafter Hzero.
  assert (Hdec : decode_stream rd zero_RawResponse = (mkData zero_Error rb, None)).
  { unfold decode_stream. rewrite Hscan.
    change (fold_left Data_member members (zero_RawResponse, None)
            = (mkData zero_Error rb, None)).
    rewrite RawResponse_members by exact Hnoerr.
    rewrite Hm, last_response_app. cbn [last_response]. rewrite Hkey.
    rewrite last_response_none by exact Hafter. reflexivity. }
  rewrite Raw_eval, To_eval. cbn [input Process].
  repeat match goal with
  | |- context [@decode_stream ?R ?I rd zero_RawResponse] =>
      replace (@decode_stream R I rd zero_RawResponse)
        with (mkData zero_Error rb, @None error) by (symmetry; exact Hdec)
  end.
  cbn zeta.
  repeat match goal with
  | |- context [@ServerError ?R ?I ?t] =>
      change (@ServerError R I t) with (Error_ServerError (Data_Error t))
  end.
  cbn [Data_Error Data_Response Raw_Bytes]. rewrite Hzero.
  split; reflexivity.
Qed.

(** X7 at an envelope whose response is the array [[1]]. *)
Lemma X7_Raw_decodes_the_response_bytes_witness :
  vkResponseProcessor_Raw (H := spec_ErrorMethods) (H0 := ids_Unmarshal)
    (Process (NopCloser (NewBufferString sSmall))) [] []
  = (unmarshal_bytes (H := ids_Unmarshal) "[1]" [],
     [EvDecode; EvServerError; EvClose; EvUnmarshal "[1]"])
  /\ fst (To (H := Data_Response_impl (H := spec_ErrorMethods))
            (Process (NopCloser (NewBufferString sSmall))) zero_RawResponse [])
     = (mkData zero_Error "[1]", None).
Proof.
  apply (X7_Raw_decodes_the_response_bytes (H := spec_ErrorMethods) (H0 := ids_Unmarshal)
           (NopCloser (NewBufferString sSmall)) sSmall
           [("ok", ("true", JBool true));
            ("response", ("[1]", JArray [("1", JNumber "1")]))]
           [("ok", ("true", JBool true))] []
           "response" "[1]" (JArray [("1", JNumber "1")]) EmptyString [] []).
  - vm_compute. reflexivity.
  - reflexivity.
  - reflexivity.
  - intros k x Hin.
    apply elem_of_cons in Hin as [Hin|Hin]; [injection Hin as -> _; reflexivity|].
    apply list_elem_of_singleton in Hin. injection Hin as -> _. reflexivity.
  - intros k x Hin. inversion Hin.
  - reflexivity.
Defined.

(** X8: an envelope without an [error] member does not reset the
    [Error] that the target holds: [To] leaves it as it was before the
    call, and when the decode succeeds the error check reports on that
    earlier value. A target that still holds the error of an earlier
    call therefore fails again on an envelope that carries none. *)
Theorem X8_error_of_target_survives `{ErrorMethods} {T} `{Unmarshal T}
    (rd : Reader) (raw : string) (members : list (string * (string * json)))
    (rest : string) (target : Data T) (trace : list event) :
  scan (content rd) = Complete raw (JObject members) rest ->
  (forall k x, (k, x) ∈ members -> field_matches "error" k = false) ->
  let out := fst (To (Process rd) target trace) in
  Data_Error (fst out) = Data_Error target
  /\ (snd (decode_stream rd target) = None ->
      snd out = Error_ServerError (Data_Error target)).
Proof.
  intros Hscan Hno. cbn zeta.
  assert (Hkeep : Data_Error (fst (decode_stream rd target)) = Data_Error target).
  { unfold decode_stream. rewrite Hscan.
    apply (Data_members_keep_Error members (target, None) Hno). }
  rewrite To_eval. cbn [input Process].
  repeat match goal with
  | |- context [@decode_stream ?R ?I rd target] =>
      change (@decode_stream R I rd target) with (decode_stream rd target)
  end.
  destruct (decode_stream rd target) as [t' [e|]]; cbn zeta; cbn [fst snd] in *.
  - split; [exact Hkeep | discriminate].
  - split; [exact Hkeep|]. intros _.
    change (ServerError t') with (Error_ServerError (Data_Error t')).
    now rewrite Hkeep.
Qed.

(** X8 at a target that holds the error 10 and an envelope that
    carries a response and no error. *)
Lemma X8_error_of_target_survives_witness :
  snd (fst (To (H := Data_Response_impl (H := spec_ErrorMethods))
              (Process (NopCloser (NewBufferString sSmall))) stale_target []))
  = Some (ServerErr (mkError 10 "stale" [] zero_Request)).
Proof.
  refine (proj2 (X8_error_of_target_survives (H := spec_ErrorMethods)
                   (NopCloser (NewBufferString sSmall)) sSmall
                   [("ok", ("true", JBool true));
                    ("response", ("[1]", JArray [("1", JNumber "1")]))]
                   EmptyString stale_target [] _ _) _).
  - vm_compute. reflexivity.
  - intros k x Hin.
    apply elem_of_cons in Hin as [Hin|Hin]; [injection Hin as -> _; reflexivity|].
    apply list_elem_of_singleton in Hin. injection Hin as -> _. reflexivity.
  - vm_compute. reflexivity.
Defined.

(** * Further properties of [Client.Do] *)

(** X9: [Client.Do] makes a single attempt: in every execution it calls
    [setRequest] exactly once and the transport exactly once, with the
    descriptor that [Request.HTTP] returns for the Request; it never
    calls the transport a second time, whatever the transport answers. *)
Theorem X9_single_transport_call {R} `{Response R}
    (c : Client) (request : Request) (response : R) (trace : list event) :
  let out := Do c request response trace in
  count is_transport (snd out) = S (count is_transport trace)
  /\ count is_setRequest (snd out) = S (count is_setRequest trace)
  /\ exists later,
       snd out = (trace ++ [EvSetRequest request;
                            EvTransport (request_descriptor request)] ++ later)%list
       /\ count is_transport later = 0
       /\ count is_setRequest later = 0
       /\ HTTP request = Returns (request_descriptor request).
Proof.
  cbn zeta. rewrite Do_eval. cbn zeta.
  assert (Hshape : exists later,
    snd (match httpClient c (request_descriptor request) with
         | (_, Some e) =>
             (Returns (setRequest request response, Some e),
              (trace ++ [EvSetRequest request;
                         EvTransport (request_descriptor request)])%list)
         | (None, None) =>
             (Panics nil_dereference,
              (trace ++ [EvSetRequest request;
                         EvTransport (request_descriptor request)])%list)
         | (Some res, None) =>
             if negb (StatusCode res =? StatusOK)%Z
             then (Returns (setRequest request response, Some ErrBadResponseCode),
                   (trace ++ [EvSetRequest request;
                              EvTransport (request_descriptor request)])%list)
             else let '(r, tr) :=
                    To (Process (Body res)) (setRequest request response)
                       (trace ++ [EvSetRequest request;
                                  EvTransport (request_descriptor request)])%list in
                  (Returns r, tr)
         end)
    = (trace ++ [EvSetRequest request;
                 EvTransport (request_descriptor request)] ++ later)%list
    /\ count is_transport later = 0 /\ count is_setRequest later = 0).
  { destruct (httpClient c (request_descriptor request)) as [[res|] [e|]];
      try (exists []; cbn [snd]; rewrite app_nil_r; repeat split; reflexivity).
    destruct (negb (StatusCode res =? StatusOK)%Z);
      [exists []; cbn [snd]; rewrite app_nil_r; repeat split; reflexivity|].
    rewrite To_eval.
    destruct (decode_stream _ _) as [r [e|]]; cbn zeta; cbn [snd];
      rewrite <- app_assoc; eexists; (split; [reflexivity|]);
      destruct (closer (input (Process (Body res)))); split; reflexivity. }
  destruct Hshape as (later & Hsnd & Ht & Hs).
  rewrite Hsnd, !count_app, Ht, Hs.
  split; [unfold count; simpl; lia|].
  split; [unfold count; simpl; lia|].
  exists later. repeat split; try assumption. apply HTTP_returns.
Qed.

(** X10: [Client.Do] closes the body of the response only on the path
    that decodes it. When the transport reports an error, or returns a
    status code other than 200, the body is neither read nor closed,
    also when it has a [Close] method; with status 200 and no error a
    body that has a [Close] method is closed exactly once. *)
Theorem X10_body_closed_only_when_decoded {R} `{Response R}
    (c : Client) (request : Request) (response : R) (trace : list event) :
  let req := request_descriptor request in
  let out := Do c request response trace in
  (forall res e,
     httpClient c req = (res, Some e) ->
     count is_close (snd out) = count is_close trace)
  /\ (forall res,
        httpClient c req = (Some res, None) ->
        StatusCode res <> StatusOK ->
        count is_close (snd out) = count is_close trace
        /\ count is_decode (snd out) = count is_decode trace)
  /\ (forall res,
        httpClient c req = (Some res, None) ->
        StatusCode res = StatusOK ->
        count is_close (snd out)
        = (if closer (Body res) then 1 else 0) + count is_close trace
        /\ count is_decode (snd out) = S (count is_decode trace)).
Proof.
  cbn zeta. rewrite Do_eval. cbn zeta. split; [|split].
  - intros res e ->. destruct res; cbn [snd]; rewrite !count_app;
      unfold count; simpl; lia.
  - intros res -> Hstatus. apply Z.eqb_neq in Hstatus. rewrite Hstatus.
    cbn [negb snd]. rewrite !count_app. unfold count. simpl. lia.
  - intros res -> Hstatus. apply Z.eqb_eq in Hstatus. rewrite Hstatus.
    cbn [negb]. rewrite To_eval. cbn [input Process].
    destruct (decode_stream _ _) as [r [e|]]; cbn zeta; cbn [snd];
      rewrite !count_app; destruct (closer (Body res)); unfold count; simpl; lia.
Qed.

(** X10 at the transports of [TestDo]: the body of the status-400
    response has a [Close] and is left open; that of the status-200
    response is closed once. *)
Lemma X10_body_closed_only_when_decoded_witness :
  (count is_close
     (snd (Do (H := Data_Response_impl (H := spec_ErrorMethods))
             bad_status_client (mkRequest "users.get" EmptyString ∅)
             zero_RawResponse [])) = count is_close []
   /\ count is_decode
        (snd (Do (H := Data_Response_impl (H := spec_ErrorMethods))
                bad_status_client (mkRequest "users.get" EmptyString ∅)
                zero_RawResponse [])) = count is_decode [])
  /\ (count is_close
        (snd (Do (H := Data_Response_impl (H := spec_ErrorMethods))
                ok_client (mkRequest "users.get" EmptyString ∅)
                zero_RawResponse [])) = 1 + count is_close []
      /\ count is_decode
           (snd (Do (H := Data_Response_impl (H := spec_ErrorMethods))
                   ok_client (mkRequest "users.get" EmptyString ∅)
                   zero_RawResponse [])) = S (count is_decode [])).
Proof.
  split.
  - apply (proj1 (proj2 (X10_body_closed_only_when_decoded
                    (H := Data_Response_impl (H := spec_ErrorMethods))
                    bad_status_client (mkRequest "users.get" EmptyString ∅)
                    zero_RawResponse []))
             (mkHTTPResponse 400 (NopCloser (NewBufferString EmptyString)))
             eq_refl).
    discriminate.
  - apply (proj2 (proj2 (X10_body_closed_only_when_decoded
                    (H := Data_Response_impl (H := spec_ErrorMethods))
                    ok_client (mkRequest "users.get" EmptyString ∅)
                    zero_RawResponse []))
             (mkHTTPResponse 200 (NopCloser (NewBufferString sData)))
             eq_refl).
    reflexivity.
Defined.

(** X11: when the transport returns neither a response nor an error,
    [Client.Do] does not return: reading the status code of the nil
    response panics, after the Request has been attached and the
    transport called, and before anything is decoded. *)
Theorem X11_nil_response_panics {R} `{Response R}
    (c : Client) (request : Request) (response : R) (trace : list event) :
  httpClient c (request_descriptor request) = (None, None) ->
  Do c request response trace
  = (Panics nil_dereference,
     (trace ++ [EvSetRequest request; EvTransport (request_descriptor request)])%list).
Proof. intros Hnil. rewrite Do_eval. cbn zeta. now rewrite Hnil. Qed.

(** X11 at a transport that returns nil and nil. *)
Lemma X11_nil_response_panics_witness :
  Do (H := Data_Response_impl (H := spec_ErrorMethods))
     nil_client (mkRequest "users.get" EmptyString ∅) zero_RawResponse []
  = (Panics nil_dereference,
     [EvSetRequest (mkRequest "users.get" EmptyString ∅);
      EvTransport (request_descriptor (mkRequest "users.get" EmptyString ∅))]).
Proof.
  apply (X11_nil_response_panics (H := Data_Response_impl (H := spec_ErrorMethods))
           nil_client (mkRequest "users.get" EmptyString ∅) zero_RawResponse []).
  reflexivity.
Defined.

(** X12: with the methods of [Error] as the spec gives them
    ([setRequest] stores the Request, which is no part of the wire
    form), every execution of [Client.Do] that returns leaves the
    originating Request on the target: after a transport error, after a
    bad status, after a failed decode and after a successful one, as
    the package's test reads it back from [response.Request]. *)
Theorem X12_request_retained {T} `{Unmarshal T} (c : Client) (request : Request)
    (response target : Data T) (err : option error) (trace : list event) :
  fst (Do (H := Data_Response_impl (H := spec_ErrorMethods))
          c request response trace) = Returns (target, err) ->
  Request_ (Data_Error target) = request.
Proof. apply Do_retains_request. Qed.

(** X12 at the successful call of [TestDoRawResponse]. *)
Lemma X12_request_retained_witness :
  Request_ (Data_Error
    (mkData (mkError 0 EmptyString [] (mkRequest "users.get" EmptyString ∅))
       (json_text "[ { 'id': 1, 'first_name': 'Павел', 'last_name': 'Дуров' } ]")))
  = mkRequest "users.get" EmptyString ∅.
Proof.
  apply (X12_request_retained (H := Raw_Unmarshal) ok_client
           (mkRequest "users.get" EmptyString ∅) zero_RawResponse _ None []).
  vm_compute. reflexivity.
Defined.

(** X13: rendering the URL of a request and parsing it again gives the
    URL back. For every Request, [url.Parse] of the text that
    [URL.String] renders is the URL that [Request.HTTP] built, so the
    descriptor carries the verb GET, the fixed scheme and host, the
    cleaned path itself (not its escaped form, and no raw path), no
    forced query mark, the encoded parameters, and the host of the URL
    as its [Host]. *)
Theorem X13_descriptor_is_the_built_url (r : Request) :
  url_Parse (URL_String (request_url r)) = Ok (request_url r)
  /\ HTTP r
     = Returns {| req_Method := "GET";
                  req_URL := {| Scheme := "https";
                                Opaque := EmptyString;
                                Host := "api.vk.com";
                                Path := path_Join [defaultPath; Method r];
                                RawPath := EmptyString;
                                OmitHost := false;
                                ForceQuery := false;
                                RawQuery := Values_Encode (request_values r) |};
                  req_Host := "api.vk.com" |}.
Proof.
  split; [|apply HTTP_returns].
  destruct (request_URL_String r) as (p' & Hp & HS).
  rewrite HS.
  rewrite url_Parse_built
    by (apply request_query_nonempty || apply Values_Encode_plain).
  unfold request_url. rewrite Hp. reflexivity.
Qed.

(** ** Blank streams *)

Lemma scan_blank (s : string) :
  all_bytes isSpace s = true -> scan s = Incomplete NeedsMore.
Proof.
  unfold scan. induction s as [|c s IH]; [reflexivity|].
  simpl. intros [Hc Hs]%andb_prop.
  change (scan_from (step machine_init c) s = Incomplete NeedsMore).
  replace (step machine_init c) with machine_init; [now apply IH|].
  unfold step, machine_init. cbn [m_status m_lex m_expect m_stack].
  unfold step_between. now rewrite Hc.
Qed.

(** X14: on a stream that delivers nothing but spaces, tabs and line
    breaks (or nothing at all) before it ends or fails, [To] and [Raw]
    return the error of the stream itself, [io.EOF] at the end of the
    data, leave the target as it was and do not call the error check. *)
Theorem X14_blank_stream_returns_stream_error `{ErrorMethods} {R} `{Response R} {V} `{Unmarshal V}
    (d : vkResponseProcessor) (response : R) (v : V) (trace : list event) :
  all_bytes isSpace (content (input d)) = true ->
  fst (To d response trace) = (response, Some (failure (input d)))
  /\ count is_hook (snd (To d response trace)) = count is_hook trace
  /\ fst (vkResponseProcessor_Raw d v trace) = (v, Some (failure (input d)))
  /\ count is_unmarshal (snd (vkResponseProcessor_Raw d v trace))
     = count is_unmarshal trace.
Proof.
  intros Hblank.
  assert (Hdec : forall (U : Type) (HU : Unmarshal U) (u : U),
            decode_stream (input d) u = (u, Some (failure (input d)))).
  { intros U HU u. unfold decode_stream. rewrite (scan_blank _ Hblank).
    unfold nonSpace. rewrite Hblank. destruct (failure (input d)); reflexivity. }
  rewrite To_eval, Raw_eval.
  repeat match goal with
  | |- context [@decode_stream ?U ?I (input d) ?u] =>
      replace (@decode_stream U I (input d) u) with (u, Some (failure (input d)))
        by (symmetry; apply Hdec)
  end.
  cbn zeta. cbn [fst snd].
  repeat split; try reflexivity;
    rewrite !count_app; destruct (closer (input d)); unfold count; simpl; lia.
Qed.

(** X14 at a buffer that holds one space. *)
Lemma X14_blank_stream_returns_stream_error_witness :
  fst (To (H := Data_Response_impl (H := spec_ErrorMethods))
         (Process (NewBufferString " ")) zero_RawResponse [])
  = (zero_RawResponse, Some io_EOF)
  /\ count is_hook
       (snd (To (H := Data_Response_impl (H := spec_ErrorMethods))
               (Process (NewBufferString " ")) zero_RawResponse []))
     = count is_hook []
  /\ fst (vkResponseProcessor_Raw (H := spec_ErrorMethods) (H0 := ids_Unmarshal)
            (Process (NewBufferString " ")) [] [])
     = ([], Some io_EOF)
  /\ count is_unmarshal
       (snd (vkResponseProcessor_Raw (H := spec_ErrorMethods) (H0 := ids_Unmarshal)
               (Process (NewBufferString " ")) [] []))
     = count is_unmarshal [].
Proof.
  apply (X14_blank_stream_returns_stream_error (H := spec_ErrorMethods)
           (H0 := Data_Response_impl (H := spec_ErrorMethods))
           (H1 := ids_Unmarshal)
           (Process (NewBufferString " ")) zero_RawResponse [] []).
  reflexivity.
Defined.
